(** * image-resizer: the raster transforms and the target-size quality search

    A shallow embedding of [js/app.js] (class [ImageResizer]): the three
    transforms [resizeImage], [rotateImage], [cropSquare] and the encoder
    search [generateOptimizedImage] / [compressToTargetSize].

    Modelling conventions.
    - JavaScript Numbers that are genuinely fractional (the JPEG quality, the
      target size typed by the user, the aspect ratio, the rotation in
      radians) are IEEE-754 binary64 values: Rocq's primitive [float], with
      the same operations and the same rounding as the JavaScript engine.
    - Numbers that are integers by construction (pixel dimensions, the
      rotation angle in degrees, string lengths, sizes in KB) are [Z]: on
      integers below 2^53 the binary64 operations used on them by the source
      ([+], [%], [Math.min], [* 0.75], [/ 1024], [Math.ceil]) are exact.
      What [parseInt] returns is not bounded by construction: it is an
      [IntegerNumber], rounded to binary64 as the engine rounds it.
    - Canvas coordinates, which are integers or half-integers, are [Q].
    - [canvas.width] and [canvas.height] are [unsigned long] attributes that
      reflect content attributes: an assignment converts its value and
      stores it, or the default when it is out of range ([Canvas.reflect]).
    - What the browser provides and the source only calls
      ([canvas.toDataURL], [parseFloat]) is a parameter: class [Browser].
    - The DOM is the record [ImageResizer]: the fields of [this] together
      with the properties of [this.elements] that the methods read or write.
      Notifications are returned to the caller instead of being appended to
      the document; the progress overlay and its timers are not modelled, so
      [resizeImage], which awaits them, runs here without interleaving.
    - [resizeImage], [rotateImage] and [cropSquare] are the methods on a
      decoded image, where [drawImage] returns; [resizeImage_try],
      [rotateImage_try] and [cropSquare_try] are the methods with their
      [try] and [catch], on a decoded or on a broken image. *)

From Stdlib Require Import ZArith QArith Floats String Ascii List Bool Lia.
From Stdlib Require Import DecimalString DecimalPos Sorted.
Import ListNotations.

#[local] Set Warnings "-inexact-float".
#[local] Open Scope string_scope.
#[local] Open Scope Z_scope.

(** ** JavaScript values *)

Definition Number := float.

(** [ToBoolean] on a Number: NaN, +0 and -0 are falsy. *)
Definition ToBoolean (x : Number) : bool :=
  negb (PrimFloat.is_nan x || PrimFloat.is_zero x).

(** The Number with the value of a (small) integer. *)
Definition Number_of_Z (z : Z) : Number :=
  if z <? 0 then PrimFloat.opp (PrimFloat.of_uint63 (Uint63.of_Z (- z)))
  else PrimFloat.of_uint63 (Uint63.of_Z z).

(** [z <= t] for an integer-valued Number [z] and a Number [t], as
    ECMAScript defines it: false when [t] is NaN, otherwise the comparison
    of the two mathematical values.  A finite binary64 value is
    [(-1)^s * m * 2^e]. *)
Definition Z_leb_Number (z : Z) (t : Number) : bool :=
  match Prim2SF t with
  | S754_nan => false
  | S754_infinity s => negb s
  | S754_zero _ => z <=? 0
  | S754_finite s m e =>
      let v := if s then Z.neg m else Z.pos m in
      if 0 <=? e then z <=? v * 2 ^ e else z * 2 ^ (- e) <=? v
  end.

(** *** parseInt

    [parseInt(string)] without a radix: leading white space is skipped, a
    sign is read, a [0x]/[0X] prefix selects radix 16, the longest prefix of
    digits is converted to an integer, and the result is the Number nearest
    to that integer; no digit at all gives NaN.  (ECMAScript lets an engine
    read the decimal digits after the twentieth as zeros; here every digit
    counts.)

    Strings are byte strings holding the UTF-8 encoding of the text, so the
    white space outside ASCII is recognised by its encoding. *)

(** The result of [parseInt]: a Number that is NaN, an integer or an
    infinity ([-0] is [Finite 0]: the source does not tell them apart). *)
Inductive IntegerNumber :=
| NaN
| Finite (z : Z)
| Infinite (negative : bool).

Definition code (c : ascii) : Z := Z.of_nat (nat_of_ascii c).

(** The ASCII characters of [StrWhiteSpaceChar]: TAB, LF, VT, FF, CR, SP. *)
Definition isStrWhiteSpaceChar (c : ascii) : bool :=
  match nat_of_ascii c with
  | 9%nat | 10%nat | 11%nat | 12%nat | 13%nat | 32%nat => true
  | _ => false
  end.

(** A byte that is not an ASCII character starts a longer sequence. *)
Definition isLeadByte (c : ascii) : bool := 128 <=? code c.

(** U+00A0 (no-break space) is [C2 A0]. *)
Definition isWhiteSpace2 (a b : ascii) : bool :=
  (code a =? 194) && (code b =? 160).

(** The other characters of [StrWhiteSpaceChar]: U+1680 is [E1 9A 80];
    U+2000 to U+200A, U+2028, U+2029 and U+202F are [E2 80 80] to
    [E2 80 8A], [E2 80 A8], [E2 80 A9] and [E2 80 AF]; U+205F is [E2 81 9F];
    U+3000 is [E3 80 80]; U+FEFF is [EF BB BF]. *)
Definition isWhiteSpace3 (a b c : ascii) : bool :=
  let a := code a in
  let b := code b in
  let c := code c in
  ((a =? 225) && (b =? 154) && (c =? 128)) ||
  ((a =? 226) && (b =? 128) &&
   (((128 <=? c) && (c <=? 138)) || (c =? 168) || (c =? 169) || (c =? 175))) ||
  ((a =? 226) && (b =? 129) && (c =? 159)) ||
  ((a =? 227) && (b =? 128) && (c =? 128)) ||
  ((a =? 239) && (b =? 187) && (c =? 191)).

Fixpoint trimStart (s : string) : string :=
  match s with
  | String a s1 =>
      if isStrWhiteSpaceChar a then trimStart s1
      else if negb (isLeadByte a) then s
      else
        match s1 with
        | String b s2 =>
            if isWhiteSpace2 a b then trimStart s2
            else
              match s2 with
              | String c s3 => if isWhiteSpace3 a b c then trimStart s3 else s
              | EmptyString => s
              end
        | EmptyString => s
        end
  | EmptyString => s
  end.

Definition digitValue (c : ascii) : option Z :=
  let n := Z.of_nat (nat_of_ascii c) in
  if (48 <=? n) && (n <=? 57) then Some (n - 48)
  else if (97 <=? n) && (n <=? 122) then Some (n - 87)
  else if (65 <=? n) && (n <=? 90) then Some (n - 55)
  else None.

Fixpoint parseDigits (R : Z) (s : string) (acc : option Z) : option Z :=
  match s with
  | EmptyString => acc
  | String c s' =>
      match digitValue c with
      | Some d =>
          if d <? R
          then parseDigits R s' (Some (match acc with
                                       | Some a => a * R + d
                                       | None => d
                                       end))
          else acc
      | None => acc
      end
  end.

(** The Number with the value nearest to the integer [z]: [z] itself below
    2^53; from there on the nearest multiple of the power of two that
    leaves 53 significant bits, the even one of two that are equally near;
    an infinity when that is 2^1024 or more. *)
Definition roundToNumber (z : Z) : IntegerNumber :=
  let a := Z.abs z in
  if a <? 2 ^ 53 then Finite z
  else
    let e := Z.log2 a - 52 in
    let q := a / 2 ^ e in
    let r := a mod 2 ^ e in
    let half := 2 ^ (e - 1) in
    let q := if (half <? r) || ((r =? half) && Z.odd q) then q + 1 else q in
    let v := q * 2 ^ e in
    if v <? 2 ^ 1024 then Finite (Z.sgn z * v) else Infinite (z <? 0).

Definition parseInt (input : string) : IntegerNumber :=
  let str := trimStart input in
  let '(sign, str) :=
    match str with
    | String "-" r => (-1, r)
    | String "+" r => (1, r)
    | _ => (1, str)
    end in
  let '(R, str) :=
    match str with
    | String "0" (String "x" r) => (16, r)
    | String "0" (String "X" r) => (16, r)
    | _ => (10, str)
    end in
  match parseDigits R str None with
  | Some mathInt => roundToNumber (sign * mathInt)
  | None => NaN
  end.

(** [!n] for the result of [parseInt]: NaN and 0 are falsy. *)
Definition falsy (n : IntegerNumber) : bool :=
  match n with
  | NaN => true
  | Finite z => z =? 0
  | Infinite _ => false
  end.

(** The integer from which the conversion of a Number to a Web IDL integer
    type starts: the Number's own value, and 0 for NaN and the infinities. *)
Definition integer (n : IntegerNumber) : Z :=
  match n with
  | Finite z => z
  | NaN | Infinite _ => 0
  end.

(** The integer value of a Number, for the comparison of [roundToNumber]
    with the conversion of the primitive floats. *)
Definition IntegerNumber_of_Number (x : Number) : IntegerNumber :=
  match Prim2SF x with
  | S754_nan => NaN
  | S754_infinity s => Infinite s
  | S754_zero _ => Finite 0
  | S754_finite s m e =>
      Finite ((if s then Z.neg m else Z.pos m) * 2 ^ e)
  end.

(** [String(z)] for an integer Number (below 10^21). *)
Definition Z_to_string (z : Z) : string := NilZero.string_of_int (Z.to_int z).

(** [(z / 1024).toFixed(2)] for a non-negative integer [z]: [z / 1024] is
    exact in binary64, and [toFixed(2)] picks the integer [n] with [n / 100]
    nearest to it, the larger one on a tie. *)
Definition toFixed2_div1024 (z : Z) : string :=
  let n := (z * 100 + 512) / 1024 in
  let cents := n mod 100 in
  Z_to_string (n / 100) ++ "." ++
  (if cents <? 10 then "0" else "") ++ Z_to_string cents.

(** ** The DOM objects the methods touch *)

(** The image element [originalImage]: its [src], and its width and height,
    which are 0 until a file has been decoded into it and the dimensions of
    the picture from then on.  A dimension is at most 2^31 - 1: the PNG
    format declares none larger, and JPEG, GIF and WebP stay far below. *)
Module Image.
Definition maxDimension : Z := 2147483647.

Definition isDimension (z : Z) : bool := (0 <=? z) && (z <=? maxDimension).

Record t := make {
  src : string;
  width : Z;
  height : Z;
  width_isDimension : isDimension width = true;
  height_isDimension : isDimension height = true
}.

(** The element with the given [src] and dimensions; a file that declares
    a size no picture can have does not decode, and leaves it 0 by 0. *)
Definition mk (src : string) (width height : Z) : t :=
  match bool_dec (isDimension width) true,
        bool_dec (isDimension height) true with
  | left W, left H => make src width height W H
  | _, _ => make src 0 0 eq_refl eq_refl
  end.
End Image.

(** The 2D context: its current transform, the stack of saved transforms
    and what has been drawn since the bitmap was last reset. *)
Inductive TransformOp :=
| translate (x y : Q)
| rotate (radians : Number).

Inductive DrawOp :=
| drawImage3 (image : Image.t) (dx dy : Q)
| drawImage5 (image : Image.t) (dx dy dWidth dHeight : Q)
| drawImage9 (image : Image.t) (sx sy sWidth sHeight dx dy dWidth dHeight : Q).

Module Canvas.
Record t := mk {
  width : Z;
  height : Z;
  transform : list TransformOp;
  saved : list (list TransformOp);
  bitmap : list (list TransformOp * DrawOp)
}.

(** The conversion of an integer to the Web IDL type [unsigned long]. *)
Definition ToUint32 (z : Z) : Z := z mod 4294967296.

(** What an [unsigned long] attribute that reflects a content attribute
    holds after the assignment of [z]: the converted value when it is at
    most 2^31 - 1, the default of the attribute otherwise. *)
Definition reflect (default z : Z) : Z :=
  let n := ToUint32 z in
  if n <=? 2147483647 then n else default.

(** [canvas.width = w] and [canvas.height = h]: the attributes reflect
    with the defaults 300 and 150; assigning a dimension, even to itself,
    resets the bitmap and the context state. *)
Definition set_width (w : Z) (c : t) : t :=
  mk (reflect 300 w) (height c) [] [] [].
Definition set_height (h : Z) (c : t) : t :=
  mk (width c) (reflect 150 h) [] [] [].

Definition save (c : t) : t :=
  mk (width c) (height c) (transform c) (transform c :: saved c) (bitmap c).
Definition restore (c : t) : t :=
  match saved c with
  | [] => c
  | tr :: rest => mk (width c) (height c) tr rest (bitmap c)
  end.
Definition apply (op : TransformOp) (c : t) : t :=
  mk (width c) (height c) (transform c ++ [op]) (saved c) (bitmap c).
Definition draw (op : DrawOp) (c : t) : t :=
  mk (width c) (height c) (transform c) (saved c)
     (bitmap c ++ [(transform c, op)]).
End Canvas.

Module Preview.
Record t := mk { display : string; src : string }.
End Preview.

(** The text of the download link: either a plain text, or the template
    [Download (~ sizeText)] filled by [compressToTargetSize]. *)
Inductive LinkText :=
| Text (s : string)
| DownloadApprox (sizeText : string).

Module DownloadLink.
Record t := mk { href : string; display : string; textContent : LinkText }.
End DownloadLink.

Record ImageResizer := mkImageResizer {
  originalImage : Image.t;
  rotationAngle : Z;
  aspectRatio : Number;
  widthInput : string;
  heightInput : string;
  targetSizeInput : string;
  unitSelect : string;
  canvas : Canvas.t;
  preview : Preview.t;
  downloadLink : DownloadLink.t
}.

(** What a method reports to its caller. *)
Inductive Notification :=
| showErrorMessage (message : string)
| showSuccessMessage (message : string).

Record Report := mkReport {
  notification : Notification;
  encodes : list Number          (* the qualities passed to toDataURL, in order *)
}.

Definition NoImageLoaded : Notification :=
  showErrorMessage "Please upload an image first.".
Definition InvalidInput : Notification :=
  showErrorMessage "Please enter valid width and height values.".

(** [ctx.drawImage(image, 0, 0, width, height)] for two results of
    [parseInt]: the call returns without drawing when one of its arguments
    is not finite. *)
Definition drawImageScaled (image : Image.t) (width height : IntegerNumber)
    (c : Canvas.t) : Canvas.t :=
  match width, height with
  | Finite w, Finite h =>
      Canvas.draw (drawImage5 image 0 0 (inject_Z w) (inject_Z h)) c
  | _, _ => c
  end.

(** The exception that [drawImage] throws when the image element it is
    given is broken: a file was assigned to its [src] and did not decode. *)
Inductive DOMException :=
| InvalidStateError.

(** [ctx.drawImage(image, ...)] on an image element that is decoded
    ([usable]) or broken. *)
Definition drawImage (usable : bool) (op : DrawOp) (c : Canvas.t)
    : Canvas.t + DOMException :=
  if usable then inl (Canvas.draw op c) else inr InvalidStateError.

(** [drawImageScaled] on such an element: the arguments are looked at
    before the image is. *)
Definition drawImageScaled_try (usable : bool) (image : Image.t)
    (width height : IntegerNumber) (c : Canvas.t)
    : Canvas.t + DOMException :=
  match width, height with
  | Finite w, Finite h =>
      drawImage usable (drawImage5 image 0 0 (inject_Z w) (inject_Z h)) c
  | _, _ => inl c
  end.

(** ** What the browser provides *)

Class Browser := {
  (** [canvas.toDataURL('image/jpeg', quality)] *)
  toDataURL : Canvas.t -> Number -> string;
  parseFloat : string -> Number
}.

Definition isEmpty (s : string) : bool :=
  match s with
  | EmptyString => true
  | String _ _ => false
  end.

(** ** The size-targeted encoder search *)

(** [Math.ceil((dataUrl.length * 0.75) / 1024)]: with [n] the length,
    [n * 0.75 / 1024] is [3n / 4096]; the product is exact in binary64 for
    every length a string can have, and so is the division by a power of
    two. *)
Definition sizeKB_of (dataUrl : string) : Z :=
  (3 * Z.of_nat (String.length dataUrl) + 4095) / 4096.

(** The local variables of [compressToTargetSize], and the qualities it has
    passed to the encoder so far. *)
Record SearchState := mkSearch {
  minQuality : Number;
  maxQuality : Number;
  quality : Number;
  bestDataUrl : string;
  bestSize : Z;
  attempts : list Number
}.

Definition initialSearch : SearchState :=
  mkSearch 0.05%float 1.0%float 0.95%float "" 0 [].

(** [for (let i = 0; i < n; i++) body] for a body that does not read [i]. *)
Fixpoint for_loop {A : Type} (n : nat) (body : A -> A) (s : A) : A :=
  match n with
  | O => s
  | S n' => for_loop n' body (body s)
  end.

(** The states in which the [n] iterations of the loop start. *)
Fixpoint loop_states {A : Type} (n : nat) (body : A -> A) (s : A) : list A :=
  match n with
  | O => []
  | S n' => s :: loop_states n' body (body s)
  end.

Section Methods.
Context {browser : Browser}.

(** One iteration of the binary search. *)
Definition searchStep (c : Canvas.t) (targetSizeKB : Number)
    (s : SearchState) : SearchState :=
  let dataUrl := toDataURL c (quality s) in
  let sizeKB := sizeKB_of dataUrl in
  if Z_leb_Number sizeKB targetSizeKB then
    mkSearch (quality s) (maxQuality s)
             ((quality s + maxQuality s) / 2)%float
             dataUrl sizeKB (attempts s ++ [quality s])
  else
    mkSearch (minQuality s) (quality s)
             ((quality s + minQuality s) / 2)%float
             (bestDataUrl s) (bestSize s) (attempts s ++ [quality s]).

(** The floor encoding, taken when the loop kept nothing. *)
Definition floorFallback (c : Canvas.t) (s : SearchState) : SearchState :=
  if isEmpty (bestDataUrl s) then
    let dataUrl := toDataURL c 0.05%float in
    mkSearch (minQuality s) (maxQuality s) (quality s)
             dataUrl (sizeKB_of dataUrl) (attempts s ++ [0.05%float])
  else s.

Definition searchLoop (c : Canvas.t) (targetSizeKB : Number) : SearchState :=
  for_loop 10 (searchStep c targetSizeKB) initialSearch.

(** The variables of [compressToTargetSize] when it reaches its [return]. *)
Definition search (c : Canvas.t) (targetSizeKB : Number) : SearchState :=
  floorFallback c (searchLoop c targetSizeKB).

Definition sizeText (bestSize : Z) : string :=
  if 1024 <=? bestSize then toFixed2_div1024 bestSize ++ " MB"
  else Z_to_string bestSize ++ " KB".

Definition set_downloadLink (l : DownloadLink.t) (st : ImageResizer)
    : ImageResizer :=
  mkImageResizer (originalImage st) (rotationAngle st) (aspectRatio st)
    (widthInput st) (heightInput st) (targetSizeInput st) (unitSelect st)
    (canvas st) (preview st) l.

Definition set_canvas (c : Canvas.t) (st : ImageResizer) : ImageResizer :=
  mkImageResizer (originalImage st) (rotationAngle st) (aspectRatio st)
    (widthInput st) (heightInput st) (targetSizeInput st) (unitSelect st)
    c (preview st) (downloadLink st).

(** [preview.src = dataUrl; downloadLink.href = dataUrl;
     downloadLink.style.display = 'inline-block'] *)
Definition showResult (dataUrl : string) (st : ImageResizer) : ImageResizer :=
  mkImageResizer (originalImage st) (rotationAngle st) (aspectRatio st)
    (widthInput st) (heightInput st) (targetSizeInput st) (unitSelect st)
    (canvas st)
    (Preview.mk (Preview.display (preview st)) dataUrl)
    (DownloadLink.mk dataUrl "inline-block"
       (DownloadLink.textContent (downloadLink st))).

(** Returns the new state, the data URL and the qualities encoded at. *)
Definition compressToTargetSize (st : ImageResizer) (targetSizeKB : Number)
    : ImageResizer * string * list Number :=
  let s := search (canvas st) targetSizeKB in
  let l := downloadLink st in
  (set_downloadLink
     (DownloadLink.mk (DownloadLink.href l) (DownloadLink.display l)
        (DownloadApprox (sizeText (bestSize s)))) st,
   bestDataUrl s, attempts s).

Definition generateOptimizedImage (st : ImageResizer) (targetSize : Number)
    : ImageResizer * string * list Number :=
  if ToBoolean targetSize && (0 <? targetSize)%float then
    compressToTargetSize st targetSize
  else
    (st, toDataURL (canvas st) 0.9%float, [0.9%float]).

Definition resizeImage (st : ImageResizer) : ImageResizer * Report :=
  if isEmpty (Image.src (originalImage st)) then
    (st, mkReport NoImageLoaded [])
  else
    let width := parseInt (widthInput st) in
    let height := parseInt (heightInput st) in
    let targetSize := parseFloat (targetSizeInput st) in
    let unit := unitSelect st in
    if falsy width || falsy height then
      (st, mkReport InvalidInput [])
    else
      let c := Canvas.set_width (Canvas.width (canvas st)) (canvas st) in
      let targetSize :=
        if String.eqb unit "MB" then (targetSize * 1024)%float
        else targetSize in
      let c := Canvas.set_width (integer width) c in
      let c := Canvas.set_height (integer height) c in
      let c := drawImageScaled (originalImage st) width height c in
      let '(st1, dataUrl, qs) :=
        generateOptimizedImage (set_canvas c st) targetSize in
      (showResult dataUrl st1,
       mkReport (showSuccessMessage "Image resized successfully!") qs).

Definition Math_PI : Number := 3.141592653589793%float.

Definition rotateImage (st : ImageResizer) : ImageResizer * Report :=
  if isEmpty (Image.src (originalImage st)) then
    (st, mkReport NoImageLoaded [])
  else
    let img := originalImage st in
    let c := Canvas.set_width (Canvas.width (canvas st)) (canvas st) in
    let rotationAngle := Z.rem (rotationAngle st + 90) 360 in
    let radians := (Number_of_Z rotationAngle * Math_PI / 180)%float in
    let width := if Z.rem rotationAngle 180 =? 0
                 then Image.width img else Image.height img in
    let height := if Z.rem rotationAngle 180 =? 0
                  then Image.height img else Image.width img in
    let c := Canvas.set_width width c in
    let c := Canvas.set_height height c in
    let c := Canvas.save c in
    let c := Canvas.apply
               (translate (inject_Z width / 2) (inject_Z height / 2)) c in
    let c := Canvas.apply (rotate radians) c in
    let c := Canvas.draw
               (drawImage3 img (inject_Z (- Image.width img) / 2)
                               (inject_Z (- Image.height img) / 2)) c in
    let c := Canvas.restore c in
    let dataUrl := toDataURL c 0.9%float in
    (mkImageResizer img rotationAngle
       (Number_of_Z width / Number_of_Z height)%float
       (Z_to_string width) (Z_to_string height)
       (targetSizeInput st) (unitSelect st) c
       (Preview.mk (Preview.display (preview st)) dataUrl)
       (DownloadLink.mk dataUrl "inline-block" (Text "Download")),
     mkReport (showSuccessMessage "Image rotated successfully!")
              [0.9%float]).

Definition cropSquare (st : ImageResizer) : ImageResizer * Report :=
  if isEmpty (Image.src (originalImage st)) then
    (st, mkReport NoImageLoaded [])
  else
    let img := originalImage st in
    let c := Canvas.set_width (Canvas.width (canvas st)) (canvas st) in
    let size := Z.min (Image.width img) (Image.height img) in
    let sx := (inject_Z (Image.width img - size) / 2)%Q in
    let sy := (inject_Z (Image.height img - size) / 2)%Q in
    let c := Canvas.set_width size c in
    let c := Canvas.set_height size c in
    let c := Canvas.draw
               (drawImage9 img sx sy (inject_Z size) (inject_Z size)
                           0 0 (inject_Z size) (inject_Z size)) c in
    let dataUrl := toDataURL c 0.9%float in
    (mkImageResizer img (rotationAngle st) 1%float
       (Z_to_string size) (Z_to_string size)
       (targetSizeInput st) (unitSelect st) c
       (Preview.mk (Preview.display (preview st)) dataUrl)
       (DownloadLink.mk dataUrl "inline-block" (Text "Download")),
     mkReport (showSuccessMessage "Image cropped successfully!")
              [0.9%float]).

(** *** The transforms with their [try] and [catch]

    [resizeImage], [rotateImage] and [cropSquare] above are the methods as
    they run on a decoded image, when [drawImage] returns.  On a broken
    image [drawImage] throws, the statements after it are skipped and the
    [catch] hands the exception to [handleError]: the result is the state
    as the statements before the call left it, and the exception.
    [usable] tells whether [originalImage] is decoded. *)

Definition resizeImage_try (usable : bool) (st : ImageResizer)
    : ImageResizer * (Report + DOMException) :=
  if isEmpty (Image.src (originalImage st)) then
    (st, inl (mkReport NoImageLoaded []))
  else
    let width := parseInt (widthInput st) in
    let height := parseInt (heightInput st) in
    let targetSize := parseFloat (targetSizeInput st) in
    let unit := unitSelect st in
    if falsy width || falsy height then
      (st, inl (mkReport InvalidInput []))
    else
      let c := Canvas.set_width (Canvas.width (canvas st)) (canvas st) in
      let targetSize :=
        if String.eqb unit "MB" then (targetSize * 1024)%float
        else targetSize in
      let c := Canvas.set_width (integer width) c in
      let c := Canvas.set_height (integer height) c in
      match drawImageScaled_try usable (originalImage st) width height c with
      | inl c =>
          let '(st1, dataUrl, qs) :=
            generateOptimizedImage (set_canvas c st) targetSize in
          (showResult dataUrl st1,
           inl (mkReport (showSuccessMessage "Image resized successfully!")
                         qs))
      | inr error => (set_canvas c st, inr error)
      end.

Definition rotateImage_try (usable : bool) (st : ImageResizer)
    : ImageResizer * (Report + DOMException) :=
  if isEmpty (Image.src (originalImage st)) then
    (st, inl (mkReport NoImageLoaded []))
  else
    let img := originalImage st in
    let c := Canvas.set_width (Canvas.width (canvas st)) (canvas st) in
    let rotationAngle := Z.rem (rotationAngle st + 90) 360 in
    let radians := (Number_of_Z rotationAngle * Math_PI / 180)%float in
    let width := if Z.rem rotationAngle 180 =? 0
                 then Image.width img else Image.height img in
    let height := if Z.rem rotationAngle 180 =? 0
                  then Image.height img else Image.width img in
    let c := Canvas.set_width width c in
    let c := Canvas.set_height height c in
    let c := Canvas.save c in
    let c := Canvas.apply
               (translate (inject_Z width / 2) (inject_Z height / 2)) c in
    let c := Canvas.apply (rotate radians) c in
    match drawImage usable
            (drawImage3 img (inject_Z (- Image.width img) / 2)
                            (inject_Z (- Image.height img) / 2)) c with
    | inl c =>
        let c := Canvas.restore c in
        let dataUrl := toDataURL c 0.9%float in
        (mkImageResizer img rotationAngle
           (Number_of_Z width / Number_of_Z height)%float
           (Z_to_string width) (Z_to_string height)
           (targetSizeInput st) (unitSelect st) c
           (Preview.mk (Preview.display (preview st)) dataUrl)
           (DownloadLink.mk dataUrl "inline-block" (Text "Download")),
         inl (mkReport (showSuccessMessage "Image rotated successfully!")
                       [0.9%float]))
    | inr error =>
        (mkImageResizer img rotationAngle (aspectRatio st)
           (widthInput st) (heightInput st)
           (targetSizeInput st) (unitSelect st) c
           (preview st) (downloadLink st),
         inr error)
    end.

Definition cropSquare_try (usable : bool) (st : ImageResizer)
    : ImageResizer * (Report + DOMException) :=
  if isEmpty (Image.src (originalImage st)) then
    (st, inl (mkReport NoImageLoaded []))
  else
    let img := originalImage st in
    let c := Canvas.set_width (Canvas.width (canvas st)) (canvas st) in
    let size := Z.min (Image.width img) (Image.height img) in
    let sx := (inject_Z (Image.width img - size) / 2)%Q in
    let sy := (inject_Z (Image.height img - size) / 2)%Q in
    let c := Canvas.set_width size c in
    let c := Canvas.set_height size c in
    match drawImage usable
            (drawImage9 img sx sy (inject_Z size) (inject_Z size)
                        0 0 (inject_Z size) (inject_Z size)) c with
    | inl c =>
        let dataUrl := toDataURL c 0.9%float in
        (mkImageResizer img (rotationAngle st) 1%float
           (Z_to_string size) (Z_to_string size)
           (targetSizeInput st) (unitSelect st) c
           (Preview.mk (Preview.display (preview st)) dataUrl)
           (DownloadLink.mk dataUrl "inline-block" (Text "Download")),
         inl (mkReport (showSuccessMessage "Image cropped successfully!")
                       [0.9%float]))
    | inr error => (set_canvas c st, inr error)
    end.

(** [displayImage] *)
Definition displayImage (st : ImageResizer) : ImageResizer :=
  let l := downloadLink st in
  mkImageResizer (originalImage st) (rotationAngle st) (aspectRatio st)
    (widthInput st) (heightInput st) (targetSizeInput st) (unitSelect st)
    (canvas st)
    (Preview.mk "block" (Image.src (originalImage st)))
    (DownloadLink.mk (DownloadLink.href l) "none"
       (DownloadLink.textContent l)).

Definition updateInputs (st : ImageResizer) : ImageResizer :=
  let img := originalImage st in
  mkImageResizer img 0
    (Number_of_Z (Image.width img) / Number_of_Z (Image.height img))%float
    (Z_to_string (Image.width img)) (Z_to_string (Image.height img))
    (targetSizeInput st) (unitSelect st)
    (canvas st) (preview st) (downloadLink st).

(** The [onload] handler that [processFile] installs on [originalImage],
    run once the file has been decoded into [img]. *)
Definition onload (img : Image.t) (st : ImageResizer) : ImageResizer :=
  let st := mkImageResizer img (rotationAngle st) (aspectRatio st)
              (widthInput st) (heightInput st) (targetSizeInput st)
              (unitSelect st) (canvas st) (preview st) (downloadLink st) in
  updateInputs (displayImage st).

(** The [reader.onload] handler of [processFile], which assigns the data
    URL of the file to [originalImage.src], when the data does not decode:
    the element is broken, its width and height are 0, and the [onerror]
    handler that [processFile] installed shows its message and changes
    nothing else. *)
Definition onerror (dataUrl : string) (st : ImageResizer)
    : ImageResizer * Notification :=
  (mkImageResizer (Image.mk dataUrl 0 0) (rotationAngle st) (aspectRatio st)
     (widthInput st) (heightInput st) (targetSizeInput st)
     (unitSelect st) (canvas st) (preview st) (downloadLink st),
   showErrorMessage "Failed to load image. Please try again.").

End Methods.

(** [n] presses of the rotate button. *)
Fixpoint rotations {browser : Browser} (n : nat) (st : ImageResizer)
    : ImageResizer :=
  match n with
  | O => st
  | S n' => rotations n' (fst (rotateImage st))
  end.

(** ** The data URL format, and the encoders used in the examples *)

(** A data URL is [data:image/jpeg;base64,] followed by the base64 text of
    the encoded bytes; base64 (RFC 4648) writes three bytes as four
    characters and pads the last group with [=]. *)
Fixpoint afterComma (s : string) : string :=
  match s with
  | EmptyString => EmptyString
  | String c s' => if Ascii.eqb c "," then s' else afterComma s'
  end.

Fixpoint countPadding (s : string) : Z :=
  match s with
  | EmptyString => 0
  | String c s' => (if Ascii.eqb c "=" then 1 else 0) + countPadding s'
  end.

(** The length of the byte sequence that a data URL carries. *)
Definition bytesLength (dataUrl : string) : Z :=
  let payload := afterComma dataUrl in
  3 * (Z.of_nat (String.length payload) / 4) - countPadding payload.

Fixpoint repeatString (n : nat) (s : string) : string :=
  match n with
  | O => EmptyString
  | S n' => s ++ repeatString n' s
  end.

(** A [parseFloat] that is right on integer literals and on text without
    digits, which is all the examples type into the target field. *)
Definition integerParseFloat (s : string) : Number :=
  match parseInt s with
  | Finite z => Number_of_Z z
  | NaN => PrimFloat.nan
  | Infinite negative =>
      if negative then PrimFloat.neg_infinity else PrimFloat.infinity
  end.

(** An encoder whose output does not depend on the quality. *)
Definition fixedEncoder (dataUrl : string) : Browser :=
  {| toDataURL := fun _ _ => dataUrl; parseFloat := integerParseFloat |}.

(** An encoder with three output sizes: 3 KB below quality 0.3, 6 KB below
    quality 0.7 and 12 KB from there on. *)
Definition steppedEncoder : Browser :=
  {| toDataURL := fun _ q =>
       "data:image/jpeg;base64," ++
       (if (q <? 0.3)%float then repeatString 1000 "AAAA"
        else if (q <? 0.7)%float then repeatString 2000 "AAAA"
        else repeatString 4000 "AAAA");
     parseFloat := integerParseFloat |}.

Definition tinyJpeg : string := "data:image/jpeg;base64,/9j/".

(** A data URL that carries 1008 bytes. *)
Definition jpeg1008 : string :=
  "data:image/jpeg;base64," ++ repeatString 336 "AAAA".

Definition blankCanvas : Canvas.t := Canvas.mk 300 150 [] [] [].

(** The page before any file is chosen: [new Image()] has an empty [src]. *)
Definition freshPage : ImageResizer :=
  mkImageResizer (Image.mk "" 0 0) 0 1%float "" "" "" "KB" blankCanvas
    (Preview.mk "none" "") (DownloadLink.mk "" "none" (Text "Download")).

Definition photo : Image.t := Image.mk "data:image/png;base64,iVBOR" 800 600.

(** The page after [photo] is loaded and the given texts are typed in. *)
Definition typed (w h target unit : string) : ImageResizer :=
  let st := onload photo freshPage in
  mkImageResizer (originalImage st) (rotationAngle st) (aspectRatio st)
    w h target unit (canvas st) (preview st) (downloadLink st).

(** The page [st] after the given texts are typed into the width and the
    height field. *)
Definition typedInto (w h : string) (st : ImageResizer) : ImageResizer :=
  mkImageResizer (originalImage st) (rotationAngle st) (aspectRatio st)
    w h (targetSizeInput st) (unitSelect st)
    (canvas st) (preview st) (downloadLink st).

(** ** Vocabulary of the statements about the search *)

(** The test of the loop body: the encoding at quality [q] is within the
    target. *)
Definition fits {browser : Browser} (c : Canvas.t) (targetSizeKB : Number)
    (q : Number) : bool :=
  Z_leb_Number (sizeKB_of (toDataURL c q)) targetSizeKB.

(** The latest of the attempts [qs] that was within the target. *)
Definition lastKept {browser : Browser} (c : Canvas.t) (targetSizeKB : Number)
    (qs : list Number) : option Number :=
  find (fits c targetSizeKB) (rev qs).

(** What the loop holds in [bestDataUrl] and [bestSize] is the encoding of
    the latest attempt that was within the target. *)
Definition holdsLastKept {browser : Browser} (c : Canvas.t)
    (targetSizeKB : Number) (s : SearchState) : Prop :=
  match lastKept c targetSizeKB (attempts s) with
  | Some q => bestDataUrl s = toDataURL c q /\
              bestSize s = sizeKB_of (toDataURL c q)
  | None => bestDataUrl s = "" /\ bestSize s = 0
  end.

(** A quality in [0.05, 1.0]. *)
Definition inRange (q : Number) : bool :=
  ((0.05 <=? q) && (q <=? 1.0))%float.

(** [0.05 <= minQuality <= quality <= maxQuality <= 1.0]. *)
Definition bounds (s : SearchState) : bool :=
  ((0.05 <=? minQuality s) && (minQuality s <=? quality s) &&
   (quality s <=? maxQuality s) && (maxQuality s <=? 1.0))%float.

(** From [s] to [s'] the lower bound did not decrease and the upper bound
    did not increase. *)
Definition narrows (s s' : SearchState) : bool :=
  ((minQuality s <=? minQuality s') && (maxQuality s' <=? maxQuality s))%float.

(** The interval arithmetic of the loop does not depend on the encoder:
    every state it can reach in [n] iterations is reached by one of the
    [2^n] sequences of answers to its test.  [explore n mn mx q] walks them
    all from the bounds [mn], [mx] and the quality [q], and checks in every
    state what [bounds], [inRange] and [narrows] ask. *)
Fixpoint explore (n : nat) (mn mx q : Number) : bool :=
  match n with
  | O => true
  | S n' =>
      let up := ((q + mx) / 2)%float in
      let down := ((q + mn) / 2)%float in
      ((0.05 <=? mn) && (mn <=? q) && (q <=? mx) && (mx <=? 1.0) &&
       (0.05 <=? q) && (q <=? 1.0) &&
       (mn <=? mn) && (mx <=? mx))%float &&
      explore n' q mx up && explore n' mn q down
  end.

(** ** The error handler ([ErrorHandler], loaded beside [app.js])

    [window]: what the handler reads from the page.  The log kept in
    [localStorage] is its JSON text; it is modelled by the list it is the
    text of.  [setItem] throws when the quota is exceeded, which the handler
    catches.  The console is not modelled, nor the timers that remove a
    notification after five seconds. *)

Module Window.
Record t := mk {
  hostname : string;             (* location.hostname *)
  href : string;                 (* location.href *)
  userAgent : string;            (* navigator.userAgent *)
  gtagDefined : bool;            (* typeof gtag !== 'undefined' *)
  quotaExceeded : bool           (* localStorage.setItem throws *)
}.
End Window.

(** [s.includes(sub)] *)
Fixpoint includes (s sub : string) : bool :=
  if String.prefix sub s then true
  else match s with
       | EmptyString => false
       | String _ s' => includes s' sub
       end.

(** The object passed to [handleError]: the properties the handler tests,
    and the others, which it only copies into the log.  An absent [message]
    is the empty text (both are falsy). *)
Module ErrorInfo.
Record t := mk {
  type : string;
  message : string;
  source : option string;
  url : option string;
  others : list (string * string)
}.
End ErrorInfo.

(** An entry of the log: [{timestamp, userAgent, url, ...errorInfo}]; a
    [url] of the error overrides the one of the page. *)
Module Entry.
Record t := mk {
  timestamp : string;
  userAgent : string;
  url : string;
  info : ErrorInfo.t
}.
End Entry.

Record ErrorHandler := mkErrorHandler {
  errorLog : list Entry.t;
  storedErrors : option (list Entry.t);   (* localStorage 'imageResizerErrors' *)
  errorNotification : option (string * string);
                                 (* the .error-notification on the page:
                                    its message and its type *)
  reports : list string          (* descriptions sent with gtag *)
}.

Definition maxLogSize : nat := 50.

(** [new ErrorHandler()] on a page whose storage holds [stored]. *)
Definition newErrorHandler (stored : option (list Entry.t)) : ErrorHandler :=
  mkErrorHandler [] stored None [].

Definition isDevelopment (w : Window.t) : bool :=
  String.eqb (Window.hostname w) "localhost" ||
  String.eqb (Window.hostname w) "127.0.0.1" ||
  includes (Window.hostname w) "dev".

(** [now] is [new Date().toISOString()]. *)
Definition logError (w : Window.t) (now : string) (errorInfo : ErrorInfo.t)
    (eh : ErrorHandler) : ErrorHandler :=
  let errorEntry :=
    Entry.mk now (Window.userAgent w)
      (match ErrorInfo.url errorInfo with
       | Some u => u
       | None => Window.href w
       end) errorInfo in
  let log := errorEntry :: errorLog eh in
  let log := if (maxLogSize <? length log)%nat then firstn maxLogSize log
             else log in
  mkErrorHandler log
    (if Window.quotaExceeded w then storedErrors eh else Some log)
    (errorNotification eh) (reports eh).

(** [a || b] on texts. *)
Definition orElse (a b : string) : string := if isEmpty a then b else a.

(** [source?.includes(sub)] as a condition. *)
Definition sourceIncludes (source : option string) (sub : string) : bool :=
  match source with
  | Some s => includes s sub
  | None => false
  end.

(** The message and the type that [showUserError] passes to
    [showNotification]. *)
Definition userError (errorInfo : ErrorInfo.t) : string * string :=
  let userMessage := "An unexpected error occurred. Please try again." in
  let message := ErrorInfo.message errorInfo in
  let source := ErrorInfo.source errorInfo in
  let type := ErrorInfo.type errorInfo in
  if String.eqb type "javascript" then
    if includes message "canvas" then
      ("Canvas processing error. Please try with a different image.", "error")
    else if includes message "memory" then
      ("Image is too large. Please try with a smaller image.", "error")
    else if includes message "network" then
      ("Network error. Please check your connection and try again.", "error")
    else (userMessage, "error")
  else if String.eqb type "promise" then
    if includes message "FileReader" then
      ("File reading error. Please try with a different image format.",
       "error")
    else if includes message "canvas" then
      ("Image processing error. Please try again.", "error")
    else (userMessage, "error")
  else if String.eqb type "resource" then
    if sourceIncludes source ".css" then
      ("Style loading error. Some features may not work properly.", "warning")
    else if sourceIncludes source ".js" then
      ("Script loading error. Please refresh the page.", "error")
    else if sourceIncludes source "image" then
      ("Image loading error. Please try with a different image.", "error")
    else (userMessage, "error")
  else if String.eqb type "file" then
    (orElse message "File processing error.", "error")
  else if String.eqb type "validation" then
    (orElse message "Invalid input. Please check your settings.", "warning")
  else if String.eqb type "network" then
    ("Network error. Please check your connection.", "error")
  else (orElse message userMessage, "error").

(** [showNotification] removes the notifications on the page and adds the
    new one. *)
Definition showUserError (errorInfo : ErrorInfo.t) (eh : ErrorHandler)
    : ErrorHandler :=
  mkErrorHandler (errorLog eh) (storedErrors eh)
    (Some (userError errorInfo)) (reports eh).

Definition shouldReportError (errorInfo : ErrorInfo.t) : bool :=
  if String.eqb (ErrorInfo.type errorInfo) "validation" ||
     String.eqb (ErrorInfo.type errorInfo) "file" then false
  else if String.eqb (ErrorInfo.type errorInfo) "resource" &&
          sourceIncludes (ErrorInfo.source errorInfo) "googlesyndication"
  then false
  else true.

Definition sendErrorReport (w : Window.t) (errorInfo : ErrorInfo.t)
    (eh : ErrorHandler) : ErrorHandler :=
  if Window.gtagDefined w then
    mkErrorHandler (errorLog eh) (storedErrors eh) (errorNotification eh)
      (reports eh ++ [ErrorInfo.message errorInfo])%list
  else eh.

Definition reportError (w : Window.t) (errorInfo : ErrorInfo.t)
    (eh : ErrorHandler) : ErrorHandler :=
  if negb (isDevelopment w) && shouldReportError errorInfo
  then sendErrorReport w errorInfo eh
  else eh.

(** [ErrorHandler.handleError] *)
Definition handlerHandleError (w : Window.t) (now : string)
    (errorInfo : ErrorInfo.t) (eh : ErrorHandler) : ErrorHandler :=
  reportError w errorInfo (showUserError errorInfo (logError w now errorInfo eh)).

Module File.
Record t := mk { name : string; size : Z; type : string }.
End File.

Definition handleFileError (w : Window.t) (now : string) (message : string)
    (file : option File.t) (eh : ErrorHandler) : ErrorHandler :=
  handlerHandleError w now
    (ErrorInfo.mk "file" message None None
       (match file with
        | Some f => [("fileName", File.name f);
                     ("fileSize", Z_to_string (File.size f));
                     ("fileType", File.type f)]
        | None => []
        end)) eh.

Definition handleValidationError (w : Window.t) (now : string)
    (message field : string) (eh : ErrorHandler) : ErrorHandler :=
  handlerHandleError w now
    (ErrorInfo.mk "validation" message None None [("field", field)]) eh.

Definition handleNetworkError (w : Window.t) (now : string)
    (message url : string) (eh : ErrorHandler) : ErrorHandler :=
  handlerHandleError w now (ErrorInfo.mk "network" message None (Some url) []) eh.

Definition clearErrorLog (eh : ErrorHandler) : ErrorHandler :=
  mkErrorHandler [] None (errorNotification eh) (reports eh).

(** [stats.byType]: an object used as a map from the type to a count; its
    keys are in the order in which they were first written. *)
Fixpoint increment (key : string) (byType : list (string * Z))
    : list (string * Z) :=
  match byType with
  | [] => [(key, 1)]
  | (k, n) :: rest =>
      if String.eqb k key then (k, n + 1) :: rest
      else (k, n) :: increment key rest
  end.

Fixpoint lookup (key : string) (byType : list (string * Z)) : option Z :=
  match byType with
  | [] => None
  | (k, n) :: rest => if String.eqb k key then Some n else lookup key rest
  end.

Module Stats.
Record t := mk { total : Z; byType : list (string * Z); recent : Z }.
End Stats.

(** [withinTheHour] is the comparison of an entry's timestamp with the
    time one hour before the call. *)
Definition getErrorStats (withinTheHour : string -> bool) (eh : ErrorHandler)
    : Stats.t :=
  Stats.mk
    (Z.of_nat (length (errorLog eh)))
    (fold_left (fun byType error =>
                  increment (ErrorInfo.type (Entry.info error)) byType)
               (errorLog eh) [])
    (Z.of_nat (length (filter (fun error =>
                                 withinTheHour (Entry.timestamp error))
                              (errorLog eh)))).

(** ** File validation and error reporting of the application *)

Definition supportedTypes : list string :=
  ["image/jpeg"; "image/png"; "image/gif"; "image/webp"].

Definition maxFileSize : Z := 20 * 1024 * 1024.

(** [supportedTypes.includes(type)] *)
Definition supported (type : string) : bool :=
  existsb (String.eqb type) supportedTypes.

(** [validateFile]: its result, the handler ([window.errorHandler], when
    the page has one) and the message the application shows itself when it
    has none. *)
Definition validateFile (w : Window.t) (now : string)
    (errorHandler : option ErrorHandler) (file : option File.t)
    : bool * option ErrorHandler * option Notification :=
  let reject (viaHandler : ErrorHandler -> ErrorHandler) (message : string) :=
    match errorHandler with
    | Some eh => (false, Some (viaHandler eh), None)
    | None => (false, None, Some (showErrorMessage message))
    end in
  match file with
  | None =>
      reject (handleValidationError w now "No file selected." "file")
             "No file selected."
  | Some f =>
      if negb (supported (File.type f)) then
        let message :=
          "Please upload a valid image file (JPEG, PNG, GIF, or WebP)." in
        reject (handleFileError w now message file) message
      else if maxFileSize <? File.size f then
        let message :=
          "File size must be less than " ++
          Z_to_string (maxFileSize / (1024 * 1024)) ++ "MB." in
        reject (handleFileError w now message file) message
      else (true, errorHandler, None)
  end.

(** [ImageResizer.handleError(error)]; [message] is [error.message], empty
    when the error has none. *)
Definition handleError (w : Window.t) (now : string)
    (errorHandler : option ErrorHandler) (message : string)
    : option ErrorHandler * option Notification :=
  match errorHandler with
  | Some eh =>
      (Some (handlerHandleError w now
               (ErrorInfo.mk "javascript"
                  (orElse message "An unexpected error occurred")
                  None None [("error", message)]) eh),
       None)
  | None =>
      (None,
       Some (showErrorMessage
               "An unexpected error occurred. Please try again."))
  end.

(** ** The theme

    The page as the two theme scripts see it: whether the root element has
    the class [dark-mode], the [darkMode] item of the local storage, the
    check box [darkModeToggle] when the page has one, and the details of
    the [themeChanged] events dispatched. *)

Record Theme := mkTheme {
  darkModeClass : bool;
  darkModeItem : option string;
  darkModeToggle : option bool;
  themeChanged : list bool
}.

Definition savedTrue (t : Theme) : bool :=
  match darkModeItem t with
  | Some v => String.eqb v "true"
  | None => false
  end.

(** [ImageResizer.toggleTheme] *)
Definition toggleTheme (t : Theme) : Theme :=
  let isDarkMode := darkModeClass t in
  if isDarkMode then
    mkTheme false (Some "false") (darkModeToggle t) (themeChanged t)
  else
    mkTheme true (Some "true") (darkModeToggle t) (themeChanged t).

(** [ImageResizer.loadTheme] *)
Definition loadTheme (t : Theme) : Theme :=
  if savedTrue t then
    mkTheme true (darkModeItem t) (darkModeToggle t) (themeChanged t)
  else
    mkTheme false (darkModeItem t) (darkModeToggle t) (themeChanged t).

Module ThemeManager.

Definition toggleTheme (t : Theme) : Theme :=
  let isDarkMode := darkModeClass t in
  let item := if isDarkMode then "false" else "true" in
  mkTheme (negb isDarkMode) (Some item)
    (match darkModeToggle t with
     | Some _ => Some (negb isDarkMode)
     | None => None
     end)
    (themeChanged t ++ [negb isDarkMode])%list.

Definition loadTheme (t : Theme) : Theme :=
  if savedTrue t then
    mkTheme true (darkModeItem t)
      (match darkModeToggle t with
       | Some _ => Some true
       | None => None
       end)
      (themeChanged t)
  else t.

End ThemeManager.

(** A page that has just been fetched again: the storage is what it was,
    the root element has the classes and the check box the state that the
    markup gives them. *)
Definition reloaded (markupDark : bool) (markupToggle : option bool)
    (t : Theme) : Theme :=
  mkTheme markupDark (darkModeItem t) markupToggle [].

(** ** Keyboard shortcuts *)

Record KeyboardEvent := mkKeyboardEvent {
  ctrlKey : bool;
  metaKey : bool;
  key : string
}.

(** What a key press does besides changing the state. *)
Inductive KeyAction :=
| preventDefault
| clickImageInput
| clickDownloadLink (href : string)
| reported (r : Report).

Definition handleKeyboardShortcuts {browser : Browser} (st : ImageResizer)
    (event : KeyboardEvent) : ImageResizer * list KeyAction :=
  let modifier := ctrlKey event || metaKey event in
  let open :=
    if modifier && String.eqb (key event) "o"
    then [preventDefault; clickImageInput] else [] in
  let save :=
    if modifier && String.eqb (key event) "s" then
      preventDefault ::
      (if negb (String.eqb (DownloadLink.display (downloadLink st)) "none")
       then [clickDownloadLink (DownloadLink.href (downloadLink st))]
       else [])
    else [] in
  let '(st, rotated) :=
    if String.eqb (key event) "r" && negb (ctrlKey event)
       && negb (metaKey event)
    then let '(st', r) := rotateImage st in (st', [reported r])
    else (st, []) in
  let '(st, cropped) :=
    if String.eqb (key event) "c" && negb (ctrlKey event)
       && negb (metaKey event)
    then let '(st', r) := cropSquare st in (st', [reported r])
    else (st, []) in
  (st, (open ++ save ++ rotated ++ cropped)%list).

(** The latest of the attempts [qs] that was over the target. *)
Definition lastRejected {browser : Browser} (c : Canvas.t)
    (targetSizeKB : Number) (qs : list Number) : option Number :=
  find (fun q => negb (fits c targetSizeKB q)) (rev qs).

(** [explore] for any two tests: [P] in each state in which one of the [n]
    iterations starts, [Q] in each state in which the loop can end. *)
Fixpoint exploreWith (P Q : Number -> Number -> Number -> bool) (n : nat)
    (mn mx q : Number) : bool :=
  match n with
  | O => Q mn mx q
  | S n' =>
      P mn mx q &&
      exploreWith P Q n' q mx ((q + mx) / 2)%float &&
      exploreWith P Q n' mn q ((q + mn) / 2)%float
  end.

(** Strictly between the floor quality and the full quality. *)
Definition strictlyInside (mn mx q : Number) : bool :=
  ((0.05 <? q) && (q <? 1.0))%float.

(** The bounds are less than 0.002 apart. *)
Definition closedIn (mn mx q : Number) : bool :=
  ((mx - mn <? 0.002) && (mn <=? mx))%float.

(** [minQuality] is the latest quality that was within the target (the
    floor if there was none) and [maxQuality] the latest that was over it
    (the full quality if there was none). *)
Definition brackets {browser : Browser} (c : Canvas.t) (targetSizeKB : Number)
    (s : SearchState) : Prop :=
  minQuality s = match lastKept c targetSizeKB (attempts s) with
                 | Some q => q
                 | None => 0.05%float
                 end /\
  maxQuality s = match lastRejected c targetSizeKB (attempts s) with
                 | Some q => q
                 | None => 1.0%float
                 end.

(** No attempt that was within the target has a quality above
    [minQuality]. *)
Definition keptAbove {browser : Browser} (c : Canvas.t) (targetSizeKB : Number)
    (s : SearchState) : Prop :=
  forall q, In q (attempts s) -> fits c targetSizeKB q = true ->
            (q <=? minQuality s)%float = true.

(** The user types [target] in the target field and picks [unit]. *)
Definition set_target (target unit : string) (st : ImageResizer)
    : ImageResizer :=
  mkImageResizer (originalImage st) (rotationAngle st) (aspectRatio st)
    (widthInput st) (heightInput st) target unit
    (canvas st) (preview st) (downloadLink st).

(** The target in KB that [resizeImage] passes to
    [generateOptimizedImage]. *)
Definition targetKB {browser : Browser} (target unit : string) : Number :=
  if String.eqb unit "MB" then (parseFloat target * 1024)%float
  else parseFloat target.

(** The entry that [logError] writes for an error. *)
Definition entryOf (w : Window.t) (event : string * ErrorInfo.t) : Entry.t :=
  Entry.mk (fst event) (Window.userAgent w)
    (match ErrorInfo.url (snd event) with
     | Some u => u
     | None => Window.href w
     end) (snd event).

(** A succession of calls of [ErrorHandler.handleError], each with the time
    of the call. *)
Definition handleAll (w : Window.t) (events : list (string * ErrorInfo.t))
    (eh : ErrorHandler) : ErrorHandler :=
  fold_left (fun eh event => handlerHandleError w (fst event) (snd event) eh)
            events eh.

(** The number of entries of a type in a log. *)
Definition countType (key : string) (log : list Entry.t) : Z :=
  Z.of_nat (length (filter (fun error =>
                              String.eqb (ErrorInfo.type (Entry.info error)) key)
                           log)).

(** What the handler has done once the application has passed it a
    rejection: the message is on the page, with the type given, it heads
    the log, and nothing was sent. *)
Definition rejectedVia (w : Window.t) (now : string) (eh eh' : ErrorHandler)
    (m type : string) : Prop :=
  errorNotification eh' = Some (m, type) /\
  (exists entry, Entry.timestamp entry = now /\
                 ErrorInfo.message (Entry.info entry) = m /\
                 errorLog eh' = firstn 50 (entry :: errorLog eh)) /\
  reports eh' = reports eh.

(** The types of error that the two scripts pass to the handler.  None of
    them names a property that an object inherits, so reading
    [byType[type]] finds what the loop of [getErrorStats] wrote or
    nothing. *)
Definition knownTypes : list string :=
  ["javascript"; "promise"; "resource"; "file"; "validation"; "network"].

(** ** The order of binary64 values *)

Lemma SFcompare_refl (p : spec_float) :
  p <> S754_nan -> SFcompare p p = Some Eq.
Proof.
  destruct p as [s|s| |s m e]; cbn; try congruence; intros _.
  - now destruct s.
  - rewrite Z.compare_refl.
    replace (PosDef.Pos.compare_cont Eq m m) with (m ?= m)%positive by reflexivity.
    rewrite Pos.compare_refl. now destruct s.
Qed.

Lemma is_nan_Prim2SF (x : Number) :
  PrimFloat.is_nan x = true <-> Prim2SF x = S754_nan.
Proof.
  unfold PrimFloat.is_nan. rewrite FloatAxioms.eqb_spec. unfold SFeqb.
  split.
  - intros H. destruct (Prim2SF x) as [s|s| |s m e] eqn:E; trivial;
      rewrite SFcompare_refl in H by congruence; discriminate.
  - intros ->. reflexivity.
Qed.

Lemma SFleb_ltb_trans (a b c : spec_float) :
  SFleb a b = true -> SFltb b c = true -> SFltb a c = true.
Proof.
  unfold SFleb, SFltb.
  destruct a as [sa|sa| |sa ma ea], b as [sb|sb| |sb mb eb],
           c as [sc|sc| |sc mc ec]; cbn;
    try destruct sa; try destruct sb; try destruct sc; cbn;
    try congruence;
    change PosDef.Pos.compare_cont with Pos.compare_cont;
    fold (Pos.compare ma mb); fold (Pos.compare mb mc);
    fold (Pos.compare ma mc);
    destruct (Z.compare_spec ea eb), (Z.compare_spec eb ec),
             (Z.compare_spec ea ec); try lia; try congruence; subst;
    destruct (Pos.compare_spec ma mb), (Pos.compare_spec mb mc),
             (Pos.compare_spec ma mc); cbn; try lia; congruence.
Qed.

Lemma Number_leb_ltb_trans (a b c : Number) :
  (a <=? b)%float = true -> (b <? c)%float = true -> (a <? c)%float = true.
Proof. rewrite leb_spec, !ltb_spec. apply SFleb_ltb_trans. Qed.

Lemma nan_times (x y : Number) :
  PrimFloat.is_nan x = true -> PrimFloat.is_nan (x * y)%float = true.
Proof.
  rewrite !is_nan_Prim2SF, mul_spec. intros ->. reflexivity.
Qed.

Lemma not_positive (t : Number) :
  PrimFloat.is_nan t = true \/ (t <=? 0)%float = true ->
  ToBoolean t && (0 <? t)%float = false.
Proof.
  intros [H | H].
  - unfold ToBoolean. now rewrite H.
  - apply andb_false_iff. right. revert H.
    rewrite leb_spec, ltb_spec.
    change (Prim2SF 0) with (S754_zero false).
    destruct (Prim2SF t) as [s|s| |s m e]; try destruct s; cbn; congruence.
Qed.

Lemma Z_leb_Number_mono (z1 z2 : Z) (t : Number) :
  z1 <= z2 -> Z_leb_Number z2 t = true -> Z_leb_Number z1 t = true.
Proof.
  unfold Z_leb_Number. intros Hz.
  destruct (Prim2SF t) as [s|s| |s m e]; trivial.
  - rewrite !Z.leb_le. lia.
  - cbv zeta. destruct (0 <=? e); rewrite !Z.leb_le; [lia|].
    assert (0 <= 2 ^ (- e)) by (apply Z.pow_nonneg; lia).
    nia.
Qed.

(** On integers that binary64 represents, [Z_leb_Number] is the primitive
    comparison of the converted integer: a check on sample sizes and
    targets, NaN, the infinities and both zeros among them. *)
Lemma Z_leb_Number_samples :
  forallb (fun z =>
    forallb (fun t =>
      Bool.eqb (Z_leb_Number z t) (Number_of_Z z <=? t)%float)
      [0.5; 1; 1.5; 2; 49.99; 50; 1024; 1e300; 0; -0; -3.5;
       PrimFloat.infinity; PrimFloat.neg_infinity; PrimFloat.nan]%float)
    [-4; 0; 1; 2; 3; 50; 51; 1023; 1024; 1025; 9007199254740992]
  = true.
Proof. vm_compute. reflexivity. Qed.

(** ** The search loop *)

Lemma explore_all : explore 11 0.05%float 1.0%float 0.95%float = true.
Proof. vm_compute. reflexivity. Qed.

Section Search.
Context {browser : Browser} (c : Canvas.t) (targetSizeKB : Number).

Let step := searchStep c targetSizeKB.

Lemma explore_step (n : nat) (s : SearchState) :
  explore (S n) (minQuality s) (maxQuality s) (quality s) = true ->
  bounds s = true /\ inRange (quality s) = true /\
  narrows s (step s) = true /\
  explore n (minQuality (step s)) (maxQuality (step s)) (quality (step s))
    = true.
Proof.
  cbn [explore]. unfold bounds, inRange, narrows.
  rewrite !andb_true_iff.
  intros [[[[[[[[[H1 H2] H3] H4] H5] H6] H7] H8] Hup] Hdown].
  rewrite H1, H2, H3, H4, H5, H6.
  repeat split; subst step; unfold searchStep;
    destruct (Z_leb_Number _ _); cbn; auto.
Qed.

Lemma explore_sound (n : nat) : forall s,
  explore n (minQuality s) (maxQuality s) (quality s) = true ->
  Forall (fun s => bounds s = true /\ inRange (quality s) = true)
         (loop_states n step s) /\
  Sorted (fun s s' => narrows s s' = true) (loop_states n step s).
Proof.
  induction n as [|n IH]; intros s H; cbn [loop_states].
  - split; constructor.
  - destruct (explore_step n s H) as (Hb & Hq & Hn & Hrest).
    destruct (IH _ Hrest) as [IHa IHs].
    split; constructor; auto.
    destruct n; cbn [loop_states]; constructor. exact Hn.
Qed.

Lemma for_loop_attempts (n : nat) : forall s,
  attempts (for_loop n step s)
  = (attempts s ++ map quality (loop_states n step s))%list.
Proof.
  induction n as [|n IH]; intros s; cbn [for_loop loop_states map].
  - now rewrite app_nil_r.
  - rewrite IH. replace (attempts (step s)) with (attempts s ++ [quality s])%list.
    + now rewrite <- app_assoc.
    + subst step; unfold searchStep; destruct (Z_leb_Number _ _); reflexivity.
Qed.

Lemma loop_states_length {A : Type} (n : nat) (body : A -> A) : forall s,
  length (loop_states n body s) = n.
Proof. induction n; intros; cbn; auto. Qed.

Lemma holdsLastKept_step (s : SearchState) :
  holdsLastKept c targetSizeKB s -> holdsLastKept c targetSizeKB (step s).
Proof.
  unfold holdsLastKept, lastKept. subst step. unfold searchStep.
  fold (fits c targetSizeKB (quality s)).
  destruct (fits c targetSizeKB (quality s)) eqn:E;
    cbn [attempts bestDataUrl bestSize];
    rewrite rev_app_distr; cbn [rev app find]; rewrite E; auto.
Qed.

Lemma holdsLastKept_loop (n : nat) : forall s,
  holdsLastKept c targetSizeKB s ->
  holdsLastKept c targetSizeKB (for_loop n step s).
Proof.
  induction n; intros s H; cbn [for_loop]; auto using holdsLastKept_step.
Qed.

Lemma searchLoop_holds :
  holdsLastKept c targetSizeKB (searchLoop c targetSizeKB).
Proof.
  apply holdsLastKept_loop. unfold holdsLastKept. cbn. auto.
Qed.

Lemma searchLoop_states :
  attempts (searchLoop c targetSizeKB)
  = map quality (loop_states 10 step initialSearch).
Proof. unfold searchLoop. fold step. now rewrite for_loop_attempts. Qed.

Lemma searchLoop_attempts_inRange :
  Forall (fun q => inRange q = true) (attempts (searchLoop c targetSizeKB)).
Proof.
  rewrite searchLoop_states. apply Forall_map.
  assert (E : explore 10 (minQuality initialSearch) (maxQuality initialSearch)
                (quality initialSearch) = true) by (vm_compute; reflexivity).
  destruct (explore_sound 10 _ E) as [H _].
  revert H. apply Forall_impl. tauto.
Qed.

End Search.

Lemma loop_states_snoc {A : Type} (n : nat) (body : A -> A) : forall s,
  loop_states (S n) body s
  = (loop_states n body s ++ [for_loop n body s])%list.
Proof.
  induction n as [|n IH]; intros s; [reflexivity|].
  change (loop_states (S (S n)) body s)
    with (s :: loop_states (S n) body (body s)).
  rewrite IH. reflexivity.
Qed.

Lemma find_all_false {A : Type} (f : A -> bool) (l : list A) :
  (forall x, In x l -> f x = false) -> find f l = None.
Proof.
  intros H. destruct (find f l) eqn:E; trivial.
  apply find_some in E. destruct E as [Hin Hf].
  rewrite (H _ Hin) in Hf. discriminate.
Qed.

Lemma isEmpty_true (s : string) : isEmpty s = true <-> s = "".
Proof. destruct s; cbn; split; congruence. Qed.

(** The fallback keeps the size held consistent with the data URL held. *)
Lemma floorFallback_size {browser : Browser} (c : Canvas.t) (t : Number)
    (s : SearchState) :
  holdsLastKept c t s ->
  bestSize (floorFallback c s) = sizeKB_of (bestDataUrl (floorFallback c s)).
Proof.
  unfold holdsLastKept, floorFallback. intros H.
  destruct (isEmpty (bestDataUrl s)) eqn:E; [reflexivity|].
  destruct (lastKept c t (attempts s)).
  - destruct H as [-> ->]. reflexivity.
  - destruct H as [H _]. rewrite H in E. discriminate E.
Qed.

(** The result of the search is consistent: the size it holds is the size
    of the data URL it holds, whether kept by the loop or taken by the
    fallback. *)
Lemma search_size {browser : Browser} (c : Canvas.t) (t : Number) :
  bestSize (search c t) = sizeKB_of (bestDataUrl (search c t)).
Proof. exact (floorFallback_size c t _ (searchLoop_holds c t)). Qed.

Lemma floorFallback_within {browser : Browser} (c : Canvas.t) (t : Number)
    (s : SearchState) :
  holdsLastKept c t s ->
  (forall q1 q2 : Number, inRange q1 = true -> inRange q2 = true ->
     (q1 <=? q2)%float = true ->
     sizeKB_of (toDataURL c q1) <= sizeKB_of (toDataURL c q2)) ->
  (exists q, inRange q = true /\ fits c t q = true) ->
  Z_leb_Number (bestSize (floorFallback c s)) t = true.
Proof.
  unfold holdsLastKept, floorFallback. intros H mono (q & Hq & Hfit).
  destruct (isEmpty (bestDataUrl s)) eqn:E; cbn [bestSize].
  - apply Z_leb_Number_mono with (2 := Hfit).
    apply mono; [vm_compute; reflexivity | exact Hq |].
    unfold inRange in Hq. apply andb_true_iff in Hq. tauto.
  - destruct (lastKept c t (attempts s)) as [q'|] eqn:K.
    + destruct H as [_ ->]. apply find_some in K. apply K.
    + destruct H as [H _]. rewrite H in E. discriminate E.
Qed.

Lemma floorFallback_floor {browser : Browser} (c : Canvas.t) (t : Number)
    (s : SearchState) :
  holdsLastKept c t s ->
  Forall (fun q => inRange q = true) (attempts s) ->
  (forall q, inRange q = true -> fits c t q = false) ->
  bestDataUrl (floorFallback c s) = toDataURL c 0.05%float /\
  bestSize (floorFallback c s) = sizeKB_of (toDataURL c 0.05%float).
Proof.
  unfold holdsLastKept. intros H R none.
  assert (K : lastKept c t (attempts s) = None).
  { apply find_all_false. intros q Hin. apply none.
    apply in_rev in Hin. rewrite Forall_forall in R. auto. }
  rewrite K in H. destruct H as [H _].
  unfold floorFallback. rewrite H. cbn. auto.
Qed.

Lemma floorFallback_count {browser : Browser} (c : Canvas.t) (t : Number)
    (s : SearchState) :
  holdsLastKept c t s ->
  length (attempts s) = 10%nat ->
  firstn 10 (attempts (floorFallback c s)) = attempts s /\
  length (attempts (floorFallback c s))
  = match lastKept c t (attempts s) with
    | Some q => if isEmpty (toDataURL c q) then 11%nat else 10%nat
    | None => 11%nat
    end.
Proof.
  unfold holdsLastKept, floorFallback. intros H L.
  assert (A : forall q, firstn 10 (attempts s ++ [q]) = attempts s /\
                        length (attempts s ++ [q]) = 11%nat).
  { intros q. rewrite length_app, L. split; [|reflexivity].
    rewrite <- L. rewrite firstn_app, Nat.sub_diag, firstn_all.
    cbn [firstn]. apply app_nil_r. }
  assert (B : firstn 10 (attempts s) = attempts s).
  { rewrite <- L. apply firstn_all. }
  destruct (lastKept c t (attempts s)) as [q|]; destruct H as [H _];
    rewrite H.
  - destruct (isEmpty (toDataURL c q)); cbn [attempts]; auto.
  - cbn [isEmpty attempts]. auto.
Qed.

Lemma floorFallback_inRange {browser : Browser} (c : Canvas.t)
    (s : SearchState) :
  Forall (fun q => inRange q = true) (attempts s) ->
  Forall (fun q => inRange q = true) (attempts (floorFallback c s)).
Proof.
  intros R. unfold floorFallback.
  destruct (isEmpty (bestDataUrl s)); cbn [attempts]; trivial.
  apply Forall_app. split; trivial.
  constructor; [vm_compute; reflexivity | constructor].
Qed.

Lemma searchLoop_length {browser : Browser} (c : Canvas.t) (t : Number) :
  length (attempts (searchLoop c t)) = 10%nat.
Proof. rewrite searchLoop_states, length_map. apply loop_states_length. Qed.

(** C1: for every canvas and every target, under an encoder whose size
    does not decrease with the quality on [0.05, 1.0], if some quality in
    [0.05, 1.0] encodes within the target then the search returns a result
    whose sizeKB is within the target; and if no quality in [0.05, 1.0]
    does, the search still returns a result, the encoding at the floor
    quality 0.05, whatever its size.  The search is a total function: there
    is no target on which it fails. *)
Theorem search_within_target {browser : Browser} (c : Canvas.t) (t : Number) :
  ((forall q1 q2 : Number, inRange q1 = true -> inRange q2 = true ->
      (q1 <=? q2)%float = true ->
      sizeKB_of (toDataURL c q1) <= sizeKB_of (toDataURL c q2)) ->
   (exists q, inRange q = true /\ fits c t q = true) ->
   Z_leb_Number (bestSize (search c t)) t = true) /\
  ((forall q, inRange q = true -> fits c t q = false) ->
   bestDataUrl (search c t) = toDataURL c 0.05%float /\
   bestSize (search c t) = sizeKB_of (toDataURL c 0.05%float)).
Proof.
  split.
  - exact (floorFallback_within c t _ (searchLoop_holds c t)).
  - exact (floorFallback_floor c t _ (searchLoop_holds c t)
             (searchLoop_attempts_inRange c t)).
Qed.


(** C3 (as amended): the sizeKB of every result of the search, the floor
    fallback included, is ceil(0.75 * n / 1024) for [n] the length of the
    returned data URL text, and it is the size shown in the download link. *)
Theorem search_sizeKB {browser : Browser} (st : ImageResizer) (t : Number) :
  let s := search (canvas st) t in
  let n := Z.of_nat (String.length (bestDataUrl s)) in
  snd (fst (compressToTargetSize st t)) = bestDataUrl s /\
  4096 * (bestSize s - 1) < 3 * n <= 4096 * bestSize s /\
  DownloadLink.textContent (downloadLink (fst (fst (compressToTargetSize st t))))
  = DownloadApprox (sizeText (bestSize s)).
Proof.
  intros s n. split; [reflexivity|]. split; [|reflexivity].
  subst n. unfold s. rewrite search_size. unfold sizeKB_of.
  generalize (Z.of_nat (String.length (bestDataUrl (search (canvas st) t)))).
  intros n. pose proof (Z.div_mod (3 * n + 4095) 4096 ltac:(lia)).
  pose proof (Z.mod_pos_bound (3 * n + 4095) 4096 ltac:(lia)). lia.
Qed.

(** C10: in each of the ten states in which the loop encodes,
    [0.05 <= minQuality <= quality <= maxQuality <= 1.0]; from each state to
    the next, the state the loop ends in included, [minQuality] does not
    decrease and [maxQuality] does not increase; the qualities encoded are
    those of the ten states; and every quality passed to the encoder, the
    fallback's included, is in [0.05, 1.0]. *)
Theorem search_quality_bounds {browser : Browser} (c : Canvas.t) (t : Number) :
  let calls := loop_states 10 (searchStep c t) initialSearch in
  length calls = 10%nat /\
  Forall (fun s => bounds s = true) calls /\
  Sorted (fun s s' => narrows s s' = true) (calls ++ [searchLoop c t]) /\
  attempts (searchLoop c t) = map quality calls /\
  Forall (fun q => inRange q = true) (attempts (search c t)).
Proof.
  intros calls.
  destruct (explore_sound c t 11 initialSearch explore_all) as [Hb Hs].
  rewrite loop_states_snoc in Hb, Hs.
  split; [apply loop_states_length|].
  split. { apply Forall_app in Hb. destruct Hb as [Hb _].
           revert Hb. apply Forall_impl. tauto. }
  split; [exact Hs|].
  split; [apply searchLoop_states|].
  apply floorFallback_inRange, searchLoop_attempts_inRange.
Qed.

Lemma steppedEncoder_size (c : Canvas.t) (q : Number) :
  sizeKB_of (@toDataURL steppedEncoder c q)
  = if (q <? 0.3)%float then 3 else if (q <? 0.7)%float then 6 else 12.
Proof.
  cbn [toDataURL steppedEncoder].
  destruct (q <? 0.3)%float; [vm_compute; reflexivity|].
  destruct (q <? 0.7)%float; vm_compute; reflexivity.
Qed.

Lemma steppedEncoder_monotone (c : Canvas.t) (q1 q2 : Number) :
  (q1 <=? q2)%float = true ->
  sizeKB_of (@toDataURL steppedEncoder c q1)
  <= sizeKB_of (@toDataURL steppedEncoder c q2).
Proof.
  intros H. rewrite !steppedEncoder_size.
  destruct (q2 <? 0.3)%float eqn:A2.
  - rewrite (Number_leb_ltb_trans _ _ _ H A2). lia.
  - destruct (q2 <? 0.7)%float eqn:B2.
    + rewrite (Number_leb_ltb_trans _ _ _ H B2).
      destruct (q1 <? 0.3)%float; lia.
    + destruct (q1 <? 0.3)%float; [lia|]. destruct (q1 <? 0.7)%float; lia.
Qed.

(** With the stepped encoder and a target of 7 KB the search ends within
    the target; with an encoder that never gets below 1 KB and a target of
    half a KB it ends on the floor encoding. *)
Lemma search_within_target_witness :
  Z_leb_Number (bestSize (@search steppedEncoder blankCanvas 7%float)) 7%float
  = true /\
  (bestDataUrl (@search (fixedEncoder tinyJpeg) blankCanvas 0.5%float)
   = tinyJpeg /\
   bestSize (@search (fixedEncoder tinyJpeg) blankCanvas 0.5%float) = 1).
Proof.
  split.
  - apply (proj1 (@search_within_target steppedEncoder blankCanvas 7%float)).
    + intros q1 q2 _ _. apply steppedEncoder_monotone.
    + exists 0.5%float. split; vm_compute; reflexivity.
  - apply (proj2 (@search_within_target (fixedEncoder tinyJpeg) blankCanvas
                    0.5%float)).
    intros q _. vm_compute. reflexivity.
Defined.


(** A data URL that carries 1008 bytes is 1367 characters long: the search
    reports 2 KB for it, where ceil(1008 / 1024) is 1. *)
Lemma sizeKB_bytes_counterexample :
  let s := @search (fixedEncoder jpeg1008) blankCanvas 5%float in
  bytesLength (bestDataUrl s) = 1008 /\
  bestSize s = 2 /\
  bestSize s <> (bytesLength (bestDataUrl s) + 1023) / 1024.
Proof. repeat split; vm_compute; congruence. Qed.

(** *** parseInt reads back what String writes *)

Lemma parseDigits_digit (c : ascii) (k : Z) (s : string) (acc : option Z) :
  digitValue c = Some k -> k < 10 ->
  parseDigits 10 (String c s) acc
  = parseDigits 10 s (Some (match acc with
                           | Some a => a * 10 + k
                           | None => k
                           end)).
Proof.
  intros D K. cbn [parseDigits]. rewrite D.
  now replace (k <? 10) with true by (symmetry; apply Z.ltb_lt; exact K).
Qed.

Ltac read_digit :=
  match goal with
  | |- context [parseDigits 10 (String ?c ?s) ?acc] =>
      let k := eval vm_compute in (Z.of_nat (nat_of_ascii c) - 48) in
      rewrite (parseDigits_digit c k s acc) by (vm_compute; reflexivity)
  end.

Lemma parseDigits_acc (d : Decimal.uint) : forall acc : positive,
  parseDigits 10 (NilEmpty.string_of_uint d) (Some (Z.pos acc))
  = Some (Z.pos (Pos.of_uint_acc d acc)).
Proof.
  induction d; intros acc; cbn [NilEmpty.string_of_uint Pos.of_uint_acc];
    [reflexivity | ..];
    read_digit; rewrite <- IHd; f_equal; f_equal; lia.
Qed.

Lemma parseDigits_zero (d : Decimal.uint) :
  parseDigits 10 (NilEmpty.string_of_uint d) (Some 0)
  = Some (Z.of_N (Pos.of_uint d)).
Proof.
  induction d; cbn [NilEmpty.string_of_uint Pos.of_uint];
    [reflexivity | ..]; read_digit;
    [exact IHd | ..]; apply parseDigits_acc.
Qed.

Lemma parseDigits_uint (d : Decimal.uint) :
  d <> Decimal.Nil ->
  parseDigits 10 (NilEmpty.string_of_uint d) None
  = Some (Z.of_N (Pos.of_uint d)).
Proof.
  destruct d; [congruence | ..]; intros _;
    cbn [NilEmpty.string_of_uint Pos.of_uint]; read_digit;
    [apply parseDigits_zero | ..]; apply parseDigits_acc.
Qed.

(** A decimal numeral starts with no white space, no sign and no [0x]. *)
Lemma parseInt_unsigned (d : Decimal.uint) :
  parseInt (NilEmpty.string_of_uint d)
  = match parseDigits 10 (NilEmpty.string_of_uint d) None with
    | Some mathInt => roundToNumber (1 * mathInt)
    | None => NaN
    end /\
  parseInt (String "-" (NilEmpty.string_of_uint d))
  = match parseDigits 10 (NilEmpty.string_of_uint d) None with
    | Some mathInt => roundToNumber (-1 * mathInt)
    | None => NaN
    end.
Proof.
  destruct d as [|l|l|l|l|l|l|l|l|l|l]; try (split; reflexivity);
    destruct l; split; reflexivity.
Qed.

Lemma to_uint_not_Nil (p : positive) : Pos.to_uint p <> Decimal.Nil.
Proof.
  intros E. pose proof (DecimalPos.Unsigned.of_to p) as H.
  rewrite E in H. discriminate H.
Qed.

(** Integers below 2^53 are Numbers. *)
Lemma roundToNumber_exact (z : Z) :
  Z.abs z < 2 ^ 53 -> roundToNumber z = Finite z.
Proof.
  intros H. unfold roundToNumber.
  now replace (Z.abs z <? 2 ^ 53) with true by (symmetry; apply Z.ltb_lt, H).
Qed.

(** From 2^53 on, [roundToNumber] is the rounding of the binary64
    conversion, here on integers that the primitive conversion accepts:
    odd ones on either side of a tie, ties, and the largest. *)
Lemma roundToNumber_samples :
  Forall (fun z => roundToNumber z
                   = IntegerNumber_of_Number
                       (PrimFloat.of_uint63 (Uint63.of_Z z)))
    [9007199254740992; 9007199254740993; 9007199254740994;
     9007199254740995; 9007199254740997; 18014398509481985;
     18014398509481986; 18014398509481987; 18014398509481990;
     1152921504606846975; 4611686018427387903; 9223372036854775807] /\
  roundToNumber 9007199254740993 = Finite 9007199254740992 /\
  roundToNumber (-9007199254740995) = Finite (-9007199254740996) /\
  roundToNumber (2 ^ 1024 - 2 ^ 970 - 1) = Finite (2 ^ 1024 - 2 ^ 971) /\
  roundToNumber (2 ^ 1024 - 2 ^ 970) = Infinite false /\
  roundToNumber (- 10 ^ 309) = Infinite true.
Proof. repeat split; repeat constructor; vm_compute; reflexivity. Qed.

(** [parseInt(String(z)) = z] for an integer Number [z] below 2^53. *)
Lemma parseInt_Z_to_string (z : Z) :
  Z.abs z < 2 ^ 53 -> parseInt (Z_to_string z) = Finite z.
Proof.
  intros B.
  destruct z as [|p|p]; [reflexivity | ..];
    unfold Z_to_string; cbn [Z.to_int NilZero.string_of_int];
    pose proof (to_uint_not_Nil p) as N;
    replace (NilZero.string_of_uint (Pos.to_uint p))
      with (NilEmpty.string_of_uint (Pos.to_uint p))
      by (destruct (Pos.to_uint p); congruence || reflexivity);
    destruct (parseInt_unsigned (Pos.to_uint p)) as [U S].
  - rewrite U, (parseDigits_uint _ N), DecimalPos.Unsigned.of_to.
    apply roundToNumber_exact. exact B.
  - rewrite S, (parseDigits_uint _ N), DecimalPos.Unsigned.of_to.
    apply roundToNumber_exact. exact B.
Qed.

(** White space outside ASCII is skipped like a blank. *)
Lemma parseInt_white_space :
  parseInt (String (ascii_of_nat 194) (String (ascii_of_nat 160) "12"))
  = Finite 12 /\
  parseInt (String (ascii_of_nat 239) (String (ascii_of_nat 187)
             (String (ascii_of_nat 191) " -7px")))
  = Finite (-7) /\
  parseInt (String (ascii_of_nat 226) (String (ascii_of_nat 128)
             (String (ascii_of_nat 168) "0x1F")))
  = Finite 31 /\
  parseInt (String (ascii_of_nat 226) (String (ascii_of_nat 128)
             (String (ascii_of_nat 139) "5")))
  = NaN.
Proof. repeat split. Qed.

(** The dimensions of an image are within the range of the canvas
    attributes. *)
Lemma Image_dimensions (img : Image.t) :
  0 <= Image.width img <= 2147483647 /\ 0 <= Image.height img <= 2147483647.
Proof.
  pose proof (Image.width_isDimension img) as W.
  pose proof (Image.height_isDimension img) as H.
  unfold Image.isDimension, Image.maxDimension in *.
  apply andb_true_iff in W, H. lia.
Qed.

Lemma reflect_in_range (default z : Z) :
  0 <= z <= 2147483647 -> Canvas.reflect default z = z.
Proof.
  intros B. unfold Canvas.reflect, Canvas.ToUint32.
  rewrite Z.mod_small by lia.
  now replace (z <=? 2147483647) with true by (symmetry; apply Z.leb_le; lia).
Qed.

Lemma reflect_width (default : Z) (img : Image.t) :
  Canvas.reflect default (Image.width img) = Image.width img.
Proof. apply reflect_in_range, Image_dimensions. Qed.

Lemma reflect_height (default : Z) (img : Image.t) :
  Canvas.reflect default (Image.height img) = Image.height img.
Proof. apply reflect_in_range, Image_dimensions. Qed.

Lemma reflect_min (default : Z) (img : Image.t) :
  Canvas.reflect default (Z.min (Image.width img) (Image.height img))
  = Z.min (Image.width img) (Image.height img).
Proof.
  apply reflect_in_range. pose proof (Image_dimensions img). lia.
Qed.

(** ** The transforms *)

Lemma isEmpty_false (s : string) : s <> "" -> isEmpty s = false.
Proof. destruct s; [congruence | reflexivity]. Qed.

Lemma generateOptimizedImage_canvas {browser : Browser} (st : ImageResizer)
    (t : Number) :
  canvas (fst (fst (generateOptimizedImage st t))) = canvas st /\
  originalImage (fst (fst (generateOptimizedImage st t))) = originalImage st /\
  rotationAngle (fst (fst (generateOptimizedImage st t))) = rotationAngle st.
Proof.
  unfold generateOptimizedImage.
  destruct (ToBoolean t && (0 <? t)%float); auto.
Qed.

(** The guard at the top of the three transforms does what it is written
    to do: while [originalImage.src] is empty, each of them reports
    NoImageLoaded, encodes nothing and returns the state it was given. *)
Lemma no_image_no_mutation {browser : Browser} (st : ImageResizer) :
  Image.src (originalImage st) = "" ->
  resizeImage st = (st, mkReport NoImageLoaded []) /\
  rotateImage st = (st, mkReport NoImageLoaded []) /\
  cropSquare st = (st, mkReport NoImageLoaded []).
Proof.
  intros H. unfold resizeImage, rotateImage, cropSquare.
  rewrite H. cbn [isEmpty]. auto.
Qed.

(** On a decoded image the transforms with their [try] are the transforms
    above: nothing is thrown. *)
Lemma try_usable {browser : Browser} (st : ImageResizer) :
  resizeImage_try true st
  = (fst (resizeImage st), inl (snd (resizeImage st))) /\
  rotateImage_try true st
  = (fst (rotateImage st), inl (snd (rotateImage st))) /\
  cropSquare_try true st
  = (fst (cropSquare st), inl (snd (cropSquare st))).
Proof.
  unfold resizeImage_try, resizeImage, rotateImage_try, rotateImage,
    cropSquare_try, cropSquare, drawImageScaled_try, drawImageScaled,
    drawImage.
  destruct (isEmpty (Image.src (originalImage st))); [auto|].
  repeat split.
  destruct (falsy (parseInt (widthInput st)) ||
            falsy (parseInt (heightInput st))); [reflexivity|].
  destruct (parseInt (widthInput st)), (parseInt (heightInput st));
    match goal with
    | |- context [generateOptimizedImage ?s ?t] =>
        destruct (generateOptimizedImage s t) as [[st1 dataUrl] qs]
    end; reflexivity.
Qed.

(** C9 (the code at the failing input): a file of an accepted type whose
    data does not decode leaves its data URL in [originalImage.src], and an
    image element that is broken, 0 by 0; no image is loaded, and the page
    says so.  The guard of the transforms tests [originalImage.src], so
    they all go on.  [rotateImage] clears the canvas, advances the angle to
    90, sizes the canvas 0 by 0, saves the context, translates and rotates
    it, and only then does [drawImage] throw; [cropSquare] leaves the
    canvas 0 by 0; [resizeImage] asks for a width and a height and, once
    they are typed, sizes the canvas before [drawImage] throws.  None of
    them reports NoImageLoaded. *)
Theorem broken_image_passes_guard :
  let loaded := onerror "data:image/png;base64,AAAA" freshPage in
  let st := fst loaded in
  let rotated := @rotateImage_try (fixedEncoder tinyJpeg) false st in
  let cropped := @cropSquare_try (fixedEncoder tinyJpeg) false st in
  let resized := @resizeImage_try (fixedEncoder tinyJpeg) false st in
  let resized' :=
    @resizeImage_try (fixedEncoder tinyJpeg) false (typedInto "400" "400" st) in
  snd loaded = showErrorMessage "Failed to load image. Please try again." /\
  isEmpty (Image.src (originalImage st)) = false /\
  rotationAngle st = 0 /\ canvas st = blankCanvas /\
  snd rotated = inr InvalidStateError /\
  rotationAngle (fst rotated) = 90 /\
  canvas (fst rotated)
  = Canvas.mk 0 0
      [translate (inject_Z 0 / 2) (inject_Z 0 / 2);
       rotate (Number_of_Z 90 * Math_PI / 180)%float] [[]] [] /\
  rotationAngle
    (fst (@rotateImage_try (fixedEncoder tinyJpeg) false (fst rotated))) = 180 /\
  snd cropped = inr InvalidStateError /\
  canvas (fst cropped) = Canvas.mk 0 0 [] [] [] /\
  snd resized = inl (mkReport InvalidInput []) /\
  snd resized' = inr InvalidStateError /\
  canvas (fst resized') = Canvas.mk 400 400 [] [] [].
Proof. repeat split. Qed.

(** The guard of [resizeImage] does what it is written to do: a width or a
    height that [parseInt] turns into NaN or 0 is reported as InvalidInput
    and the state is returned as it was. *)
Lemma resizeImage_rejects_falsy {browser : Browser} (st : ImageResizer) :
  falsy (parseInt (widthInput st)) = true \/
  falsy (parseInt (heightInput st)) = true ->
  Image.src (originalImage st) <> "" ->
  resizeImage st = (st, mkReport InvalidInput []).
Proof.
  intros H Hsrc. unfold resizeImage. rewrite (isEmpty_false _ Hsrc).
  destruct H as [-> | ->]; [reflexivity|].
  now rewrite orb_true_r.
Qed.

(** C4 (the code at the failing input): on the page with the photo of 800
    by 600 loaded, typing -5 as the width makes [maintainAspectRatio] write
    -4 as the height.  [parseInt] reads both as they stand, neither is
    falsy, and [resizeImage] does not report InvalidInput: it encodes once,
    puts the encoding in the preview and in the download link and reports
    success. *)
Theorem resizeImage_accepts_negative_width :
  let st := typed "-5" "-4" "" "KB" in
  let r := @resizeImage (fixedEncoder tinyJpeg) st in
  parseInt (widthInput st) = Finite (-5) /\
  parseInt (heightInput st) = Finite (-4) /\
  notification (snd r) = showSuccessMessage "Image resized successfully!" /\
  notification (snd r) <> InvalidInput /\
  encodes (snd r) = [0.9%float] /\
  Preview.src (preview (fst r)) = tinyJpeg /\
  DownloadLink.href (downloadLink (fst r)) = tinyJpeg /\
  DownloadLink.display (downloadLink (fst r)) = "inline-block" /\
  fst r <> st.
Proof.
  repeat split; try (vm_compute; reflexivity);
    vm_compute; intros E; discriminate E.
Qed.

(** What [resizeImage] leaves on the canvas once its guard has passed: the
    typed width and height as the canvas attributes hold them, and one
    drawing of the whole image into the box that was typed. *)
Lemma resizeImage_canvas {browser : Browser} (st : ImageResizer) (w h : Z) :
  Image.src (originalImage st) <> "" ->
  parseInt (widthInput st) = Finite w ->
  parseInt (heightInput st) = Finite h ->
  w <> 0 -> h <> 0 ->
  canvas (fst (resizeImage st))
  = Canvas.mk (Canvas.reflect 300 w) (Canvas.reflect 150 h) [] []
      [([], drawImage5 (originalImage st) 0 0 (inject_Z w) (inject_Z h))].
Proof.
  intros Hsrc Hw Hh Pw Ph. unfold resizeImage.
  rewrite (isEmpty_false _ Hsrc), Hw, Hh. cbn [falsy integer].
  replace (w =? 0) with false by (symmetry; apply Z.eqb_neq; lia).
  replace (h =? 0) with false by (symmetry; apply Z.eqb_neq; lia).
  cbn [orb].
  match goal with
  | |- context [generateOptimizedImage ?s ?t] =>
      pose proof (generateOptimizedImage_canvas s t) as G;
      destruct (generateOptimizedImage s t) as [[st1 dataUrl] qs]
  end.
  cbn [fst snd] in *. destruct G as (G & _ & _).
  unfold showResult. cbn [canvas]. rewrite G. reflexivity.
Qed.

Lemma resizeImage_success {browser : Browser} (st : ImageResizer) :
  Image.src (originalImage st) <> "" ->
  falsy (parseInt (widthInput st)) = false ->
  falsy (parseInt (heightInput st)) = false ->
  notification (snd (resizeImage st))
  = showSuccessMessage "Image resized successfully!".
Proof.
  intros Hsrc Hw Hh. unfold resizeImage.
  rewrite (isEmpty_false _ Hsrc), Hw, Hh. cbn [orb].
  match goal with
  | |- context [generateOptimizedImage ?s ?t] =>
      destruct (generateOptimizedImage s t) as [[st1 dataUrl] qs]
  end.
  reflexivity.
Qed.

(** C8, amended: with an image loaded and a width and a height that parse
    to the positive integers [w] and [h], both at most 2147483647, as their
    decimal texts do, [resizeImage] leaves a canvas of exactly [w] by [h]
    on which the whole original image has been drawn once, into the box
    from (0, 0) of width [w] and height [h]. *)
Theorem resize_geometry {browser : Browser} (st : ImageResizer) (w h : Z) :
  Image.src (originalImage st) <> "" ->
  parseInt (widthInput st) = Finite w ->
  parseInt (heightInput st) = Finite h ->
  0 < w <= 2147483647 -> 0 < h <= 2147483647 ->
  let r := resizeImage st in
  Canvas.width (canvas (fst r)) = w /\
  Canvas.height (canvas (fst r)) = h /\
  Canvas.bitmap (canvas (fst r))
  = [([], drawImage5 (originalImage st) 0 0 (inject_Z w) (inject_Z h))] /\
  notification (snd r) = showSuccessMessage "Image resized successfully!" /\
  parseInt (Z_to_string w) = Finite w /\ parseInt (Z_to_string h) = Finite h.
Proof.
  intros Hsrc Hw Hh Pw Ph. cbv zeta.
  rewrite (resizeImage_canvas st w h Hsrc Hw Hh) by lia.
  cbn [Canvas.width Canvas.height Canvas.bitmap].
  rewrite !reflect_in_range by lia.
  repeat split.
  - apply resizeImage_success; trivial; rewrite ?Hw, ?Hh; cbn [falsy];
      apply Z.eqb_neq; lia.
  - apply parseInt_Z_to_string. change (2 ^ 53) with 9007199254740992. lia.
  - apply parseInt_Z_to_string. change (2 ^ 53) with 9007199254740992. lia.
Qed.

Lemma resize_geometry_witness :
  let r := @resizeImage steppedEncoder (typed "400" "300" "7" "KB") in
  Canvas.width (canvas (fst r)) = 400 /\
  Canvas.height (canvas (fst r)) = 300 /\
  Canvas.bitmap (canvas (fst r)) = [([], drawImage5 photo 0 0 400 300)] /\
  notification (snd r) = showSuccessMessage "Image resized successfully!" /\
  parseInt (Z_to_string 400) = Finite 400 /\
  parseInt (Z_to_string 300) = Finite 300.
Proof.
  apply (@resize_geometry steppedEncoder (typed "400" "300" "7" "KB") 400 300);
    try reflexivity; try lia.
  vm_compute. congruence.
Defined.

(** C8 as the specification states it fails from 2^31 on.  On the page
    with the photo of 800 by 600 loaded, typing 2147483648 as the width
    makes [maintainAspectRatio] write 1610612736 as the height: both are
    positive integers, [resizeImage] reports success, and the canvas is 300
    wide, the default of the attribute.  Typing 4294967297 makes the height
    3221225473: the canvas is 1 by 150. *)
Lemma resize_geometry_counterexample :
  let st := typed "2147483648" "1610612736" "" "KB" in
  let r := @resizeImage (fixedEncoder tinyJpeg) st in
  let st2 := typed "4294967297" "3221225473" "" "KB" in
  let r2 := @resizeImage (fixedEncoder tinyJpeg) st2 in
  Image.src (originalImage st) <> "" /\
  parseInt (widthInput st) = Finite 2147483648 /\
  parseInt (heightInput st) = Finite 1610612736 /\
  notification (snd r) = showSuccessMessage "Image resized successfully!" /\
  Canvas.width (canvas (fst r)) = 300 /\
  Canvas.height (canvas (fst r)) = 1610612736 /\
  Canvas.width (canvas (fst r)) <> 2147483648 /\
  parseInt (widthInput st2) = Finite 4294967297 /\
  parseInt (heightInput st2) = Finite 3221225473 /\
  Canvas.width (canvas (fst r2)) = 1 /\
  Canvas.height (canvas (fst r2)) = 150.
Proof.
  repeat split; try (vm_compute; reflexivity);
    vm_compute; intros E; discriminate E.
Qed.

(** C7: when the target field does not parse to a number, or when the
    target, converted to KB (times 1024 for MB), is NaN or at most 0, a
    resize encodes exactly once, at quality 0.9, and what it shows and
    offers for download is that encoding of the drawn canvas; and
    [generateOptimizedImage] given such a target returns the encoding at
    quality 0.9 without touching the state. *)
Theorem no_target_single_encode {browser : Browser} (st : ImageResizer) :
  let target := parseFloat (targetSizeInput st) in
  let normalized :=
    if String.eqb (unitSelect st) "MB" then (target * 1024)%float
    else target in
  Image.src (originalImage st) <> "" ->
  falsy (parseInt (widthInput st)) = false ->
  falsy (parseInt (heightInput st)) = false ->
  PrimFloat.is_nan target = true \/
  PrimFloat.is_nan normalized = true \/ (normalized <=? 0)%float = true ->
  let r := resizeImage st in
  encodes (snd r) = [0.9%float] /\
  Preview.src (preview (fst r)) = toDataURL (canvas (fst r)) 0.9%float /\
  DownloadLink.href (downloadLink (fst r))
  = toDataURL (canvas (fst r)) 0.9%float /\
  forall st', generateOptimizedImage st' normalized
              = (st', toDataURL (canvas st') 0.9%float, [0.9%float]).
Proof.
  intros target normalized Hsrc Hw Hh Ht.
  assert (N : ToBoolean normalized && (0 <? normalized)%float = false).
  { apply not_positive. destruct Ht as [Ht | [Ht | Ht]]; auto.
    left. subst normalized. destruct (String.eqb _ _); trivial.
    now apply nan_times. }
  assert (G : forall st', generateOptimizedImage st' normalized
              = (st', toDataURL (canvas st') 0.9%float, [0.9%float])).
  { intros st'. unfold generateOptimizedImage. now rewrite N. }
  cbv zeta. unfold resizeImage.
  rewrite (isEmpty_false _ Hsrc), Hw, Hh. cbn [orb].
  fold target. fold normalized. rewrite G. cbn. auto.
Qed.

Lemma no_target_single_encode_witness :
  let r := @resizeImage steppedEncoder (typed "400" "300" "" "KB") in
  encodes (snd r) = [0.9%float] /\
  Preview.src (preview (fst r))
  = @toDataURL steppedEncoder (canvas (fst r)) 0.9%float /\
  DownloadLink.href (downloadLink (fst r))
  = @toDataURL steppedEncoder (canvas (fst r)) 0.9%float /\
  forall st', @generateOptimizedImage steppedEncoder st' PrimFloat.nan
              = (st', @toDataURL steppedEncoder (canvas st') 0.9%float,
                 [0.9%float]).
Proof.
  apply (@no_target_single_encode steppedEncoder (typed "400" "300" "" "KB"));
    try reflexivity.
  - vm_compute. congruence.
  - left. vm_compute. reflexivity.
Defined.

Lemma rotations_succ {browser : Browser} (n : nat) : forall st,
  rotations (S n) st = fst (rotateImage (rotations n st)).
Proof.
  induction n as [|n IH]; intros st; [reflexivity|].
  change (rotations (S (S n)) st) with (rotations (S n) (fst (rotateImage st))).
  rewrite IH. reflexivity.
Qed.

(** One press of the rotate button on a loaded image. *)
Lemma rotateImage_loaded {browser : Browser} (st : ImageResizer) :
  Image.src (originalImage st) <> "" ->
  let img := originalImage st in
  let angle := Z.rem (rotationAngle st + 90) 360 in
  let upright := Z.rem angle 180 =? 0 in
  let width := if upright then Image.width img else Image.height img in
  let height := if upright then Image.height img else Image.width img in
  let st' := fst (rotateImage st) in
  originalImage st' = img /\
  rotationAngle st' = angle /\
  Canvas.width (canvas st') = width /\
  Canvas.height (canvas st') = height /\
  Canvas.bitmap (canvas st')
  = [([translate (inject_Z width / 2) (inject_Z height / 2);
       rotate (Number_of_Z angle * Math_PI / 180)%float],
      drawImage3 img (inject_Z (- Image.width img) / 2)
                     (inject_Z (- Image.height img) / 2))].
Proof.
  intros Hsrc. cbv zeta. unfold rotateImage.
  rewrite (isEmpty_false _ Hsrc).
  cbn [fst originalImage rotationAngle canvas Canvas.width Canvas.height
       Canvas.bitmap Canvas.transform Canvas.saved Canvas.set_width
       Canvas.set_height Canvas.save Canvas.apply Canvas.draw Canvas.restore
       app].
  destruct (Z.rem (Z.rem (rotationAngle st + 90) 360) 180 =? 0);
    rewrite !reflect_width, !reflect_height; auto.
Qed.

Lemma rotations_angle {browser : Browser} (img : Image.t)
    (st : ImageResizer) (n : nat) :
  Image.src img <> "" ->
  originalImage (rotations n (onload img st)) = img /\
  rotationAngle (rotations n (onload img st)) = (90 * Z.of_nat n) mod 360.
Proof.
  intros Hsrc. induction n as [|n [IHi IHa]]; [split; reflexivity|].
  rewrite rotations_succ.
  assert (L : Image.src (originalImage (rotations n (onload img st))) <> "")
    by now rewrite IHi.
  destruct (rotateImage_loaded _ L) as (Hi & Ha & _).
  rewrite Hi, Ha, IHi, IHa. split; trivial.
  rewrite Z.rem_mod_nonneg by
    (pose proof (Z.mod_pos_bound (90 * Z.of_nat n) 360); lia).
  rewrite Z.add_mod_idemp_l by lia. f_equal. lia.
Qed.

(** C5: loading an image sets the rotation angle to 0; after [n >= 1]
    presses of the rotate button on an image of [w] by [h] the angle is
    [90 n mod 360], the canvas is [w] by [h] when the angle is 0 or 180 and
    [h] by [w] when it is 90 or 270, and it holds one drawing: the original
    image, rotated by the whole angle about the centre of the canvas.  One
    press swaps the dimensions; four presses give angle 0 and the original
    dimensions. *)
Theorem rotate_cycle {browser : Browser} (img : Image.t) (st : ImageResizer)
    (n : nat) :
  Image.src img <> "" ->
  (1 <= n)%nat ->
  let w := Image.width img in
  let h := Image.height img in
  let loaded := onload img st in
  let dims st := (Canvas.width (canvas st), Canvas.height (canvas st)) in
  let stn := rotations n loaded in
  let angle := (90 * Z.of_nat n) mod 360 in
  rotationAngle loaded = 0 /\
  rotationAngle stn = angle /\
  originalImage stn = img /\
  ((angle = 0 \/ angle = 180) /\ dims stn = (w, h) \/
   (angle = 90 \/ angle = 270) /\ dims stn = (h, w)) /\
  Canvas.bitmap (canvas stn)
  = [([translate (inject_Z (fst (dims stn)) / 2)
                 (inject_Z (snd (dims stn)) / 2);
       rotate (Number_of_Z angle * Math_PI / 180)%float],
      drawImage3 img (inject_Z (- w) / 2) (inject_Z (- h) / 2))] /\
  dims (rotations 1 loaded) = (h, w) /\
  rotationAngle (rotations 4 loaded) = 0 /\
  dims (rotations 4 loaded) = (w, h).
Proof.
  intros Hsrc Hn. cbv zeta.
  assert (Step : forall k,
    let s := rotations (S k) (onload img st) in
    let a := (90 * Z.of_nat (S k)) mod 360 in
    rotationAngle s = a /\ originalImage s = img /\
    Canvas.width (canvas s)
    = (if Z.rem a 180 =? 0 then Image.width img else Image.height img) /\
    Canvas.height (canvas s)
    = (if Z.rem a 180 =? 0 then Image.height img else Image.width img) /\
    Canvas.bitmap (canvas s)
    = [([translate (inject_Z (Canvas.width (canvas s)) / 2)
                   (inject_Z (Canvas.height (canvas s)) / 2);
         rotate (Number_of_Z a * Math_PI / 180)%float],
        drawImage3 img (inject_Z (- Image.width img) / 2)
                       (inject_Z (- Image.height img) / 2))]).
  { intros k. cbv zeta.
    destruct (rotations_angle img st k Hsrc) as [Ki Ka].
    destruct (rotations_angle img st (S k) Hsrc) as [Si Sa].
    assert (L : Image.src (originalImage (rotations k (onload img st))) <> "")
      by now rewrite Ki.
    destruct (rotateImage_loaded _ L) as (_ & Ha & Hw & Hh & Hb).
    rewrite <- rotations_succ in Ha, Hw, Hh, Hb.
    rewrite Sa in Ha. rewrite <- Ha, Ki in Hw, Hh, Hb.
    rewrite Hb, Hw, Hh. auto. }
  split; [reflexivity|].
  destruct n as [|k]; [lia|].
  destruct (Step k) as (Ha & Hi & Hw & Hh & Hb).
  split; [exact Ha|]. split; [exact Hi|].
  split.
  { rewrite Hw, Hh.
    pose proof (Z.mod_pos_bound (90 * Z.of_nat (S k)) 360 ltac:(lia)) as B.
    pose proof (Z.div_mod (90 * Z.of_nat (S k)) 360 ltac:(lia)) as D.
    set (a := (90 * Z.of_nat (S k)) mod 360) in *.
    assert (A : a = 0 \/ a = 90 \/ a = 180 \/ a = 270) by lia.
    destruct A as [-> | [-> | [-> | ->]]]; cbn; auto. }
  split; [exact Hb|].
  destruct (Step 0%nat) as (_ & _ & Hw1 & Hh1 & _).
  destruct (Step 3%nat) as (Ha4 & _ & Hw4 & Hh4 & _).
  rewrite Hw1, Hh1, Ha4, Hw4, Hh4. cbn. auto.
Qed.

Lemma rotate_cycle_witness :
  let loaded := @onload photo freshPage in
  let dims st := (Canvas.width (canvas st), Canvas.height (canvas st)) in
  rotationAngle (@rotations steppedEncoder 3 loaded) = 270 /\
  dims (@rotations steppedEncoder 3 loaded) = (600, 800) /\
  dims (@rotations steppedEncoder 1 loaded) = (600, 800) /\
  dims (@rotations steppedEncoder 4 loaded) = (800, 600).
Proof.
  destruct (@rotate_cycle steppedEncoder photo freshPage 3)
    as (_ & Ha & _ & _ & _ & H1 & _ & H4).
  - vm_compute. congruence.
  - lia.
  - cbv zeta. split; [exact Ha|]. split; [vm_compute; reflexivity|].
    split; [exact H1 | exact H4].
Defined.

(** C6: with an image of [w] by [h] loaded, [cropSquare] leaves a canvas
    whose width and height are both [min w h], on which the square of that
    size at the offsets [sx = (w - size) / 2] and [sy = (h - size) / 2] of
    the original image has been drawn once, unscaled; the square is centred:
    it leaves [sx] on either side and [sy] above and below. *)
Theorem cropSquare_centered {browser : Browser} (st : ImageResizer) :
  Image.src (originalImage st) <> "" ->
  let img := originalImage st in
  let w := Image.width img in
  let h := Image.height img in
  let size := Z.min w h in
  let sx := (inject_Z (w - size) / 2)%Q in
  let sy := (inject_Z (h - size) / 2)%Q in
  let st' := fst (cropSquare st) in
  Canvas.width (canvas st') = size /\
  Canvas.height (canvas st') = size /\
  Canvas.bitmap (canvas st')
  = [([], drawImage9 img sx sy (inject_Z size) (inject_Z size)
                     0 0 (inject_Z size) (inject_Z size))] /\
  (sx + inject_Z size + sx == inject_Z w)%Q /\
  (sy + inject_Z size + sy == inject_Z h)%Q /\
  (0 <= sx)%Q /\ (0 <= sy)%Q /\
  notification (snd (cropSquare st))
  = showSuccessMessage "Image cropped successfully!".
Proof.
  intros Hsrc. cbv zeta. unfold cropSquare.
  rewrite (isEmpty_false _ Hsrc).
  cbn [fst snd canvas notification Canvas.width Canvas.height Canvas.bitmap
       Canvas.transform Canvas.saved Canvas.set_width Canvas.set_height
       Canvas.draw app].
  rewrite !reflect_min.
  repeat split.
  - unfold Qeq, Qplus, Qdiv, Qmult, Qinv, inject_Z. cbn. lia.
  - unfold Qeq, Qplus, Qdiv, Qmult, Qinv, inject_Z. cbn. lia.
  - unfold Qle, Qdiv, Qmult, Qinv, inject_Z. cbn. lia.
  - unfold Qle, Qdiv, Qmult, Qinv, inject_Z. cbn. lia.
Qed.

Lemma cropSquare_centered_witness :
  let st' := fst (@cropSquare steppedEncoder (@onload photo freshPage)) in
  Canvas.width (canvas st') = 600 /\
  Canvas.height (canvas st') = 600 /\
  Canvas.bitmap (canvas st')
  = [([], drawImage9 photo (inject_Z 200 / 2) (inject_Z 0 / 2) 600 600
                     0 0 600 600)].
Proof.
  destruct (@cropSquare_centered steppedEncoder (@onload photo freshPage))
    as (Hw & Hh & Hb & _).
  - vm_compute. congruence.
  - cbv zeta. split; [exact Hw|]. split; [exact Hh | exact Hb].
Defined.

(** ** More on the search *)

Lemma exploreWith_sound {browser : Browser} (c : Canvas.t) (t : Number)
    (P Q : Number -> Number -> Number -> bool) (n : nat) : forall s,
  exploreWith P Q n (minQuality s) (maxQuality s) (quality s) = true ->
  Forall (fun s => P (minQuality s) (maxQuality s) (quality s) = true)
         (loop_states n (searchStep c t) s) /\
  (let e := for_loop n (searchStep c t) s in
   Q (minQuality e) (maxQuality e) (quality e) = true).
Proof.
  induction n as [|n IH]; intros s H; cbn [loop_states for_loop].
  - split; [constructor | exact H].
  - cbn [exploreWith] in H. rewrite !andb_true_iff in H.
    destruct H as [[HP Hup] Hdown].
    assert (R : exploreWith P Q n (minQuality (searchStep c t s))
                  (maxQuality (searchStep c t s))
                  (quality (searchStep c t s)) = true).
    { unfold searchStep. destruct (Z_leb_Number _ _); cbn; assumption. }
    destruct (IH _ R) as [IHa IHq]. split; [constructor|]; assumption.
Qed.

Lemma Number_leb_trans (a b c : Number) :
  (a <=? b)%float = true -> (b <=? c)%float = true -> (a <=? c)%float = true.
Proof.
  rewrite !leb_spec. unfold SFleb.
  destruct (Prim2SF a) as [sa|sa| |sa ma ea], (Prim2SF b) as [sb|sb| |sb mb eb],
           (Prim2SF c) as [sc|sc| |sc mc ec]; cbn;
    try destruct sa; try destruct sb; try destruct sc; cbn;
    try congruence;
    change PosDef.Pos.compare_cont with Pos.compare_cont;
    fold (Pos.compare ma mb); fold (Pos.compare mb mc);
    fold (Pos.compare ma mc);
    destruct (Z.compare_spec ea eb), (Z.compare_spec eb ec),
             (Z.compare_spec ea ec); try lia; try congruence; subst;
    destruct (Pos.compare_spec ma mb), (Pos.compare_spec mb mc),
             (Pos.compare_spec ma mc); cbn; try lia; congruence.
Qed.

Lemma Number_leb_refl (a b : Number) :
  (a <=? b)%float = true -> (b <=? b)%float = true.
Proof.
  rewrite !leb_spec. unfold SFleb.
  destruct (Prim2SF b) as [s|s| |s m e] eqn:E.
  - intros _. now rewrite SFcompare_refl.
  - intros _. now rewrite SFcompare_refl.
  - destruct (Prim2SF a) as [sa|sa| |sa ma ea]; cbn; congruence.
  - intros _. now rewrite SFcompare_refl.
Qed.

Lemma inRange_leb_refl (q : Number) :
  inRange q = true -> (q <=? q)%float = true.
Proof.
  unfold inRange. rewrite andb_true_iff. intros [H _].
  exact (Number_leb_refl _ _ H).
Qed.

(** X1: the ten attempts of the loop are all strictly between 0.05 and
    1.0: whatever the target and the encoder, the loop never encodes at
    full quality nor at the floor quality, which only the fallback uses. *)
Theorem loop_attempts_strictly_inside {browser : Browser} (c : Canvas.t)
    (t : Number) :
  Forall (fun q => (0.05 <? q)%float = true /\ (q <? 1.0)%float = true)
         (attempts (searchLoop c t)) /\
  forall q, In q (attempts (search c t)) ->
            (q <? 1.0)%float = true /\
            ((0.05 <? q)%float = true \/ q = 0.05%float).
Proof.
  assert (E : exploreWith strictlyInside (fun _ _ _ => true) 10
                (minQuality initialSearch) (maxQuality initialSearch)
                (quality initialSearch) = true) by (vm_compute; reflexivity).
  destruct (exploreWith_sound c t _ _ 10 _ E) as [H _].
  assert (A : Forall (fun q => (0.05 <? q)%float = true /\
                               (q <? 1.0)%float = true)
                     (attempts (searchLoop c t))).
  { rewrite searchLoop_states. apply Forall_map.
    revert H. apply Forall_impl. intros s. unfold strictlyInside.
    now rewrite andb_true_iff. }
  split; [exact A|].
  intros q. unfold search, floorFallback.
  rewrite Forall_forall in A.
  destruct (isEmpty _); cbn [attempts].
  - rewrite in_app_iff. intros [Hin | [<- | []]].
    + destruct (A _ Hin). auto.
    + split; [vm_compute; reflexivity | auto].
  - intros Hin. destruct (A _ Hin). auto.
Qed.

Lemma brackets_step {browser : Browser} (c : Canvas.t) (t : Number)
    (s : SearchState) :
  brackets c t s -> brackets c t (searchStep c t s).
Proof.
  unfold brackets, lastKept, lastRejected, searchStep.
  fold (fits c t (quality s)).
  destruct (fits c t (quality s)) eqn:E;
    cbn [attempts minQuality maxQuality];
    rewrite rev_app_distr; cbn [rev app find]; rewrite E; cbn [negb]; tauto.
Qed.

Lemma brackets_loop {browser : Browser} (c : Canvas.t) (t : Number) (n : nat) :
  forall s, brackets c t s -> brackets c t (for_loop n (searchStep c t) s).
Proof.
  induction n as [|n IH]; intros s H; cbn [for_loop]; [exact H|].
  apply IH, brackets_step, H.
Qed.

Lemma searchLoop_brackets {browser : Browser} (c : Canvas.t) (t : Number) :
  brackets c t (searchLoop c t).
Proof. apply brackets_loop. split; reflexivity. Qed.

Lemma searchLoop_closedIn {browser : Browser} (c : Canvas.t) (t : Number) :
  closedIn (minQuality (searchLoop c t)) (maxQuality (searchLoop c t))
           (quality (searchLoop c t)) = true.
Proof.
  assert (E : exploreWith (fun _ _ _ => true) closedIn 10
                (minQuality initialSearch) (maxQuality initialSearch)
                (quality initialSearch) = true) by (vm_compute; reflexivity).
  exact (proj2 (exploreWith_sound c t _ _ 10 _ E)).
Qed.

Lemma brackets_threshold {browser : Browser} (c : Canvas.t) (t : Number)
    (s : SearchState) :
  closedIn (minQuality s) (maxQuality s) (quality s) = true ->
  brackets c t s ->
  holdsLastKept c t s ->
  Forall (fun q => inRange q = true) (attempts s) ->
  (maxQuality s - minQuality s <? 0.002)%float = true /\
  (minQuality s <=? maxQuality s)%float = true /\
  brackets c t s /\
  (forall q, lastKept c t (attempts s) = Some q ->
     fits c t q = true /\ bestDataUrl s = toDataURL c q) /\
  (forall q, lastRejected c t (attempts s) = Some q ->
     fits c t q = false /\
     ((forall q1 q2 : Number, inRange q1 = true -> inRange q2 = true ->
         (q1 <=? q2)%float = true ->
         sizeKB_of (toDataURL c q1) <= sizeKB_of (toDataURL c q2)) ->
      forall q', inRange q' = true -> (q <=? q')%float = true ->
                 fits c t q' = false)).
Proof.
  intros W B Hk R. unfold holdsLastKept in Hk.
  rewrite Forall_forall in R.
  unfold closedIn in W. rewrite andb_true_iff in W.
  destruct W as [W1 W2].
  split; [exact W1|]. split; [exact W2|]. split; [exact B|]. split.
  - intros q H. split.
    + apply find_some in H. apply H.
    + rewrite H in Hk. apply Hk.
  - intros q H. apply find_some in H. destruct H as [Hin Hf].
    apply negb_true_iff in Hf. apply in_rev in Hin.
    split; [exact Hf|].
    intros mono q' Rq' Hle.
    destruct (fits c t q') eqn:F; trivial.
    unfold fits in Hf, F.
    rewrite (Z_leb_Number_mono _ _ t (mono q q' (R _ Hin) Rq' Hle) F) in Hf.
    discriminate Hf.
Qed.

(** X2: when the loop ends, [minQuality] is the latest quality whose
    encoding was within the target (0.05 if there was none) and
    [maxQuality] the latest whose encoding was over it (1.0 if there was
    none); the two are less than 0.002 apart.  So with an encoder whose
    size does not decrease with the quality, once an attempt was over the
    target every quality from [maxQuality] up is over it too: the quality
    kept is within 0.002 of the qualities that do not fit. *)
Theorem search_brackets_threshold {browser : Browser} (c : Canvas.t)
    (t : Number) :
  let s := searchLoop c t in
  (maxQuality s - minQuality s <? 0.002)%float = true /\
  (minQuality s <=? maxQuality s)%float = true /\
  brackets c t s /\
  (forall q, lastKept c t (attempts s) = Some q ->
     fits c t q = true /\ bestDataUrl s = toDataURL c q) /\
  (forall q, lastRejected c t (attempts s) = Some q ->
     fits c t q = false /\
     ((forall q1 q2 : Number, inRange q1 = true -> inRange q2 = true ->
         (q1 <=? q2)%float = true ->
         sizeKB_of (toDataURL c q1) <= sizeKB_of (toDataURL c q2)) ->
      forall q', inRange q' = true -> (q <=? q')%float = true ->
                 fits c t q' = false)).
Proof.
  exact (brackets_threshold c t _ (searchLoop_closedIn c t)
           (searchLoop_brackets c t) (searchLoop_holds c t)
           (searchLoop_attempts_inRange c t)).
Qed.

Lemma search_brackets_threshold_witness :
  let s := @searchLoop steppedEncoder blankCanvas 7%float in
  (maxQuality s - minQuality s <? 0.002)%float = true /\
  @fits steppedEncoder blankCanvas 7%float (minQuality s) = true /\
  @fits steppedEncoder blankCanvas 7%float (maxQuality s) = false /\
  @fits steppedEncoder blankCanvas 7%float 0.8%float = false.
Proof.
  destruct (@search_brackets_threshold steppedEncoder blankCanvas 7%float)
    as (W & _ & _ & _ & Hr).
  cbv zeta.
  destruct (Hr (maxQuality (@searchLoop steppedEncoder blankCanvas 7%float)))
    as [_ Hm]; [vm_compute; reflexivity|].
  split; [exact W|]. split; [vm_compute; reflexivity|].
  split; [vm_compute; reflexivity|].
  apply Hm.
  - intros q1 q2 _ _. apply steppedEncoder_monotone.
  - vm_compute. reflexivity.
  - vm_compute. reflexivity.
Defined.

Lemma keptAbove_loop {browser : Browser} (c : Canvas.t) (t : Number)
    (n : nat) : forall s,
  explore n (minQuality s) (maxQuality s) (quality s) = true ->
  keptAbove c t s -> keptAbove c t (for_loop n (searchStep c t) s).
Proof.
  induction n as [|n IH]; intros s E K; cbn [for_loop]; [exact K|].
  destruct (explore_step c t n s E) as (Hb & Hq & _ & Hrest).
  apply IH; [exact Hrest|].
  unfold bounds in Hb. rewrite !andb_true_iff in Hb.
  destruct Hb as [[[_ Hmq] _] _].
  unfold keptAbove, searchStep in *. fold (fits c t (quality s)).
  destruct (fits c t (quality s)) eqn:F; cbn [attempts minQuality];
    intros q Hin Hf; apply in_app_iff in Hin; destruct Hin as [Hin | [<- | []]].
  - exact (Number_leb_trans _ _ _ (K q Hin Hf) Hmq).
  - exact (inRange_leb_refl _ Hq).
  - exact (K q Hin Hf).
  - rewrite F in Hf. discriminate Hf.
Qed.

Lemma searchLoop_keptAbove {browser : Browser} (c : Canvas.t) (t : Number) :
  keptAbove c t (searchLoop c t).
Proof.
  apply keptAbove_loop; [vm_compute; reflexivity|].
  intros q [].
Qed.

Lemma sizeKB_of_nonneg (dataUrl : string) : 0 <= sizeKB_of dataUrl.
Proof. unfold sizeKB_of. apply Z.div_pos; lia. Qed.

Lemma best_of_attempts {browser : Browser} (c : Canvas.t) (t : Number)
    (s : SearchState) :
  keptAbove c t s -> brackets c t s -> holdsLastKept c t s ->
  Forall (fun q => inRange q = true) (attempts s) ->
  (forall q1 q2 : Number, inRange q1 = true -> inRange q2 = true ->
     (q1 <=? q2)%float = true ->
     sizeKB_of (toDataURL c q1) <= sizeKB_of (toDataURL c q2)) ->
  forall q, In q (attempts s) -> fits c t q = true ->
  sizeKB_of (toDataURL c q) <= bestSize (floorFallback c s).
Proof.
  intros K B Hk R mono q Hin Hf.
  unfold brackets in B. destruct B as [Bmin _].
  unfold holdsLastKept in Hk. rewrite Forall_forall in R.
  destruct (lastKept c t (attempts s)) as [q'|] eqn:L.
  - destruct Hk as [Hu Hs].
    pose proof (find_some _ _ L) as [Hin' _]. apply in_rev in Hin'.
    pose proof (K q Hin Hf) as Hle. rewrite Bmin in Hle.
    pose proof (mono q q' (R _ Hin) (R _ Hin') Hle) as M.
    unfold floorFallback. rewrite Hu.
    destruct (isEmpty (toDataURL c q')) eqn:Em; cbn [bestSize].
    + apply isEmpty_true in Em. rewrite Em in M.
      change (sizeKB_of "") with 0 in M.
      pose proof (sizeKB_of_nonneg (toDataURL c 0.05%float)). lia.
    + rewrite Hs. exact M.
  - pose proof (find_none _ _ L q) as N.
    rewrite N in Hf by (apply -> in_rev; exact Hin). discriminate Hf.
Qed.

(** X3: with an encoder whose size does not decrease with the quality on
    [0.05, 1.0], the size the search returns is at least the size of every
    attempt of the loop that was within the target: the search returns the
    largest fitting encoding it has seen. *)
Theorem search_returns_largest_fit {browser : Browser} (c : Canvas.t)
    (t : Number) :
  (forall q1 q2 : Number, inRange q1 = true -> inRange q2 = true ->
     (q1 <=? q2)%float = true ->
     sizeKB_of (toDataURL c q1) <= sizeKB_of (toDataURL c q2)) ->
  forall q, In q (attempts (searchLoop c t)) -> fits c t q = true ->
  sizeKB_of (toDataURL c q) <= bestSize (search c t).
Proof.
  exact (best_of_attempts c t _ (searchLoop_keptAbove c t)
           (searchLoop_brackets c t) (searchLoop_holds c t)
           (searchLoop_attempts_inRange c t)).
Qed.

Lemma search_returns_largest_fit_witness :
  sizeKB_of (@toDataURL steppedEncoder blankCanvas 0.5%float)
  <= bestSize (@search steppedEncoder blankCanvas 7%float).
Proof.
  apply (@search_returns_largest_fit steppedEncoder blankCanvas 7%float).
  - intros q1 q2 _ _. apply steppedEncoder_monotone.
  - vm_compute. auto.
  - vm_compute. reflexivity.
Defined.

(** ** More on the transforms *)

Lemma positive_truthy (t : Number) :
  (0 <? t)%float = true -> ToBoolean t && (0 <? t)%float = true.
Proof.
  intros H. rewrite H, andb_true_r. unfold ToBoolean.
  apply negb_true_iff, orb_false_iff. revert H.
  unfold PrimFloat.is_nan, PrimFloat.is_zero.
  rewrite ltb_spec, !FloatAxioms.eqb_spec. unfold SFltb, SFeqb.
  change (Prim2SF 0) with (S754_zero false).
  change (Prim2SF PrimFloat.zero) with (S754_zero false).
  destruct (Prim2SF t) as [s|s| |s m e] eqn:E; cbn; try discriminate;
    intros H; (split; [apply negb_false_iff|]);
    try rewrite Z.compare_refl;
    try (replace (PosDef.Pos.compare_cont Eq m m) with (m ?= m)%positive
           by reflexivity; rewrite Pos.compare_refl);
    destruct s; try reflexivity; discriminate.
Qed.

Lemma floorFallback_length {browser : Browser} (c : Canvas.t) (t : Number)
    (s : SearchState) :
  holdsLastKept c t s ->
  length (attempts s) = 10%nat ->
  length (attempts (floorFallback c s)) = 10%nat \/
  length (attempts (floorFallback c s)) = 11%nat.
Proof.
  intros H L. destruct (floorFallback_count c t s H L) as [_ ->].
  destruct (lastKept _ _ _); [destruct (isEmpty _)|]; auto.
Qed.

Lemma search_length {browser : Browser} (c : Canvas.t) (t : Number) :
  length (attempts (search c t)) = 10%nat \/
  length (attempts (search c t)) = 11%nat.
Proof.
  exact (floorFallback_length c t _ (searchLoop_holds c t)
           (searchLoop_length c t)).
Qed.

(** X4: a resize with a positive target (after the conversion to KB) shows
    and offers for download the data URL the search returns for the drawn
    canvas, writes in the link the size of exactly that data URL, and has
    encoded at the qualities of the search, ten or eleven times.  The drawn
    canvas has the typed width and height as its attributes keep them
    (the value itself up to 2147483647; beyond that, or below 0, the value
    modulo 2^32 when that is at most 2147483647 and the default, 300 or
    150, when it is not) and holds the image drawn into the box that was
    typed. *)
Theorem resize_with_target {browser : Browser} (st : ImageResizer) (w h : Z) :
  let target := parseFloat (targetSizeInput st) in
  let normalized :=
    if String.eqb (unitSelect st) "MB" then (target * 1024)%float
    else target in
  Image.src (originalImage st) <> "" ->
  parseInt (widthInput st) = Finite w ->
  parseInt (heightInput st) = Finite h ->
  w <> 0 -> h <> 0 ->
  (0 <? normalized)%float = true ->
  let r := resizeImage st in
  let c := Canvas.mk (Canvas.reflect 300 w) (Canvas.reflect 150 h) [] []
             [([], drawImage5 (originalImage st) 0 0
                     (inject_Z w) (inject_Z h))] in
  let l := downloadLink (fst r) in
  canvas (fst r) = c /\
  encodes (snd r) = attempts (search c normalized) /\
  (length (encodes (snd r)) = 10%nat \/ length (encodes (snd r)) = 11%nat) /\
  DownloadLink.href l = bestDataUrl (search c normalized) /\
  Preview.src (preview (fst r)) = DownloadLink.href l /\
  DownloadLink.display l = "inline-block" /\
  DownloadLink.textContent l
  = DownloadApprox (sizeText (sizeKB_of (DownloadLink.href l))).
Proof.
  intros target normalized Hsrc Hw Hh Pw Ph Pos r c l.
  split; [exact (resizeImage_canvas st w h Hsrc Hw Hh Pw Ph)|].
  assert (R : r = (showResult (bestDataUrl (search c normalized))
                     (set_downloadLink
                        (DownloadLink.mk (DownloadLink.href (downloadLink st))
                           (DownloadLink.display (downloadLink st))
                           (DownloadApprox
                              (sizeText (bestSize (search c normalized)))))
                        (set_canvas c st)),
                   mkReport (showSuccessMessage "Image resized successfully!")
                            (attempts (search c normalized)))).
  { subst r. unfold resizeImage.
    rewrite (isEmpty_false _ Hsrc), Hw, Hh. cbn [falsy integer].
    replace (w =? 0) with false by (symmetry; apply Z.eqb_neq; lia).
    replace (h =? 0) with false by (symmetry; apply Z.eqb_neq; lia).
    cbn [orb]. fold target. fold normalized.
    unfold generateOptimizedImage. rewrite (positive_truthy _ Pos).
    unfold compressToTargetSize. cbv beta iota zeta. reflexivity. }
  subst l. rewrite R. cbn [fst snd encodes showResult downloadLink preview
                            DownloadLink.href DownloadLink.display
                            DownloadLink.textContent Preview.src
                            set_downloadLink].
  rewrite search_size. repeat split. apply search_length.
Qed.

Lemma resize_with_target_witness :
  let r := @resizeImage steppedEncoder (typed "400" "300" "7" "KB") in
  let l := downloadLink (fst r) in
  DownloadLink.textContent l
  = DownloadApprox (sizeText (sizeKB_of (DownloadLink.href l))) /\
  DownloadLink.textContent l = DownloadApprox "6 KB".
Proof.
  destruct (@resize_with_target steppedEncoder (typed "400" "300" "7" "KB")
              400 300) as (_ & _ & _ & _ & _ & _ & T);
    try reflexivity; try lia.
  - vm_compute. congruence.
  - cbv zeta. split; [exact T | vm_compute; reflexivity].
Defined.

(** X5: the target field and the unit matter to a resize only through the
    target in KB: two ways of typing the same target (1 MB and 1024 KB)
    give the same canvas, the same encodes, the same preview and the same
    download link. *)
Theorem resize_same_target {browser : Browser} (st : ImageResizer)
    (target1 unit1 target2 unit2 : string) :
  targetKB target1 unit1 = targetKB target2 unit2 ->
  let r1 := resizeImage (set_target target1 unit1 st) in
  let r2 := resizeImage (set_target target2 unit2 st) in
  snd r1 = snd r2 /\
  canvas (fst r1) = canvas (fst r2) /\
  preview (fst r1) = preview (fst r2) /\
  downloadLink (fst r1) = downloadLink (fst r2).
Proof.
  intros H. cbv zeta. unfold resizeImage, set_target.
  cbn [originalImage widthInput heightInput targetSizeInput unitSelect canvas].
  cbv beta zeta.
  destruct (isEmpty (Image.src (originalImage st))); [auto|].
  destruct (falsy (parseInt (widthInput st)) ||
            falsy (parseInt (heightInput st))); [auto|].
  change (if String.eqb unit1 "MB" then (parseFloat target1 * 1024)%float
          else parseFloat target1) with (targetKB target1 unit1).
  change (if String.eqb unit2 "MB" then (parseFloat target2 * 1024)%float
          else parseFloat target2) with (targetKB target2 unit2).
  rewrite H. unfold generateOptimizedImage.
  destruct (ToBoolean (targetKB target2 unit2) &&
            (0 <? targetKB target2 unit2)%float);
    [unfold compressToTargetSize|]; cbv beta iota zeta;
    cbn [fst snd canvas preview downloadLink set_canvas set_downloadLink
         showResult]; auto.
Qed.

Lemma resize_same_target_witness :
  let r1 := @resizeImage steppedEncoder (typed "400" "300" "1" "MB") in
  let r2 := @resizeImage steppedEncoder (typed "400" "300" "1024" "KB") in
  snd r1 = snd r2 /\ downloadLink (fst r1) = downloadLink (fst r2).
Proof.
  destruct (@resize_same_target steppedEncoder (typed "400" "300" "" "KB")
              "1" "MB" "1024" "KB") as (A & _ & _ & B).
  - vm_compute. reflexivity.
  - split; [exact A | exact B].
Defined.

Lemma generateOptimizedImage_frame {browser : Browser} (st : ImageResizer)
    (t : Number) :
  exists l, fst (fst (generateOptimizedImage st t)) = set_downloadLink l st.
Proof.
  unfold generateOptimizedImage.
  destruct (ToBoolean t && (0 <? t)%float).
  - eexists. reflexivity.
  - exists (downloadLink st). destruct st. reflexivity.
Qed.

Lemma resizeImage_keeps {browser : Browser} (st : ImageResizer) :
  let st' := fst (resizeImage st) in
  originalImage st' = originalImage st /\
  rotationAngle st' = rotationAngle st /\
  aspectRatio st' = aspectRatio st /\
  widthInput st' = widthInput st /\
  heightInput st' = heightInput st /\
  targetSizeInput st' = targetSizeInput st /\
  unitSelect st' = unitSelect st /\
  Preview.display (preview st') = Preview.display (preview st).
Proof.
  cbv zeta. unfold resizeImage.
  destruct (isEmpty (Image.src (originalImage st))); [cbn; auto 10|].
  destruct (falsy (parseInt (widthInput st)) ||
            falsy (parseInt (heightInput st))); [cbn; auto 10|].
  match goal with
  | |- context [generateOptimizedImage ?s ?t] =>
      destruct (generateOptimizedImage_frame s t) as [l G];
      destruct (generateOptimizedImage s t) as [[st1 dataUrl] qs]
  end.
  cbn [fst snd] in *. subst st1. cbn. auto 10.
Qed.

(** X6: whatever is typed, [resizeImage] leaves the loaded image, the
    rotation angle, the aspect ratio and the four input fields as they
    were: a resize does not become the baseline of later transforms. *)
Theorem resizeImage_frame {browser : Browser} (st : ImageResizer) :
  let st' := fst (resizeImage st) in
  originalImage st' = originalImage st /\
  rotationAngle st' = rotationAngle st /\
  aspectRatio st' = aspectRatio st /\
  widthInput st' = widthInput st /\
  heightInput st' = heightInput st /\
  targetSizeInput st' = targetSizeInput st /\
  unitSelect st' = unitSelect st /\
  Preview.display (preview st') = Preview.display (preview st).
Proof. exact (resizeImage_keeps st). Qed.

(** X7: cropping twice is cropping once: [cropSquare] starts from the
    loaded image, not from what the canvas holds, so a second crop leaves
    the same state and the same report as the first. *)
Theorem cropSquare_idempotent {browser : Browser} (st : ImageResizer) :
  cropSquare (fst (cropSquare st)) = cropSquare st.
Proof.
  unfold cropSquare.
  destruct (isEmpty (Image.src (originalImage st))) eqn:E;
    cbn [fst originalImage]; rewrite E; reflexivity.
Qed.

Lemma rotations_add {browser : Browser} (a b : nat) : forall st,
  rotations (a + b) st = rotations b (rotations a st).
Proof.
  induction a as [|a IH]; intros st; [reflexivity|].
  cbn [Nat.add rotations]. apply IH.
Qed.

(** [rotateImage] reads the loaded image, the angle, the target field, the
    unit and the display of the preview, and nothing else. *)
Lemma rotateImage_ext {browser : Browser} (st1 st2 : ImageResizer) :
  originalImage st1 = originalImage st2 ->
  Z.rem (rotationAngle st1 + 90) 360 = Z.rem (rotationAngle st2 + 90) 360 ->
  targetSizeInput st1 = targetSizeInput st2 ->
  unitSelect st1 = unitSelect st2 ->
  Preview.display (preview st1) = Preview.display (preview st2) ->
  Image.src (originalImage st1) <> "" ->
  rotateImage st1 = rotateImage st2.
Proof.
  intros Hi Ha Ht Hu Hp Hsrc. unfold rotateImage.
  rewrite <- Hi, (isEmpty_false _ Hsrc), <- Ha, <- Ht, <- Hu, <- Hp.
  reflexivity.
Qed.

Lemma rotations_fields {browser : Browser} (n : nat) : forall st,
  Image.src (originalImage st) <> "" ->
  0 <= rotationAngle st ->
  originalImage (rotations n st) = originalImage st /\
  rotationAngle (rotations n st)
  = (if (n =? 0)%nat then rotationAngle st
     else (rotationAngle st + 90 * Z.of_nat n) mod 360) /\
  targetSizeInput (rotations n st) = targetSizeInput st /\
  unitSelect (rotations n st) = unitSelect st /\
  Preview.display (preview (rotations n st)) = Preview.display (preview st).
Proof.
  induction n as [|n IH]; intros st Hsrc Ha; [cbn; auto|].
  rewrite rotations_succ.
  destruct (IH st Hsrc Ha) as (Ii & Ia & It & Iu & Ip).
  assert (L : Image.src (originalImage (rotations n st)) <> "")
    by now rewrite Ii.
  unfold rotateImage. rewrite (isEmpty_false _ L).
  cbn [fst originalImage rotationAngle targetSizeInput unitSelect preview
       Preview.display Nat.eqb].
  rewrite Ii, Ia, It, Iu, Ip. repeat split.
  destruct n as [|n]; cbn [Nat.eqb].
  - rewrite Z.rem_mod_nonneg by lia. f_equal; lia.
  - rewrite Z.rem_mod_nonneg by
      (pose proof (Z.mod_pos_bound (rotationAngle st + 90 * Z.of_nat (S n))
                     360); lia).
    rewrite Z.add_mod_idemp_l by lia. f_equal; lia.
Qed.

(** X8: from a state whose angle is not negative, as all the angles the
    page can hold are, the state after [n + 4] presses of the rotate button
    is the state after [n] presses, for every [n >= 1]: angle, canvas,
    input fields, aspect ratio, preview and download link. *)
Theorem rotations_period {browser : Browser} (st : ImageResizer) (n : nat) :
  Image.src (originalImage st) <> "" ->
  0 <= rotationAngle st ->
  (1 <= n)%nat ->
  rotations (n + 4) st = rotations n st.
Proof.
  intros Hsrc Ha Hn. destruct n as [|k]; [lia|].
  replace (S k + 4)%nat with (5 + k)%nat by lia.
  rewrite rotations_add.
  change (rotations (S k) st) with (rotations k (rotations 1 st)).
  f_equal.
  change (rotations 5 st) with (rotations (S 4) st).
  rewrite rotations_succ. change (rotations 1 st) with (fst (rotateImage st)).
  f_equal.
  destruct (rotations_fields 4 st Hsrc Ha) as (Ii & Ia & It & Iu & Ip).
  apply rotateImage_ext; try assumption; [|now rewrite Ii].
  rewrite Ia. cbn [Nat.eqb].
  rewrite !Z.rem_mod_nonneg by
    (pose proof (Z.mod_pos_bound (rotationAngle st + 90 * Z.of_nat 4) 360);
     lia).
  rewrite Z.add_mod_idemp_l by lia.
  replace (rotationAngle st + 90 * Z.of_nat 4 + 90)
    with (rotationAngle st + 90 + 1 * 360) by lia.
  apply Z.mod_add. lia.
Qed.

Lemma rotations_period_witness :
  @rotations steppedEncoder 6 (onload photo freshPage)
  = @rotations steppedEncoder 2 (onload photo freshPage).
Proof.
  apply (@rotations_period steppedEncoder (onload photo freshPage) 2).
  - vm_compute. congruence.
  - vm_compute. congruence.
  - lia.
Defined.

(** X9: a crop does not see the rotation: after any number of presses of
    the rotate button, [cropSquare] leaves the canvas, the preview, the
    download link, the input fields and the aspect ratio it leaves without
    them, and the same report; the angle stays what the rotations made it,
    so the next rotation goes on from there. *)
Theorem cropSquare_after_rotations {browser : Browser} (st : ImageResizer)
    (n : nat) :
  Image.src (originalImage st) <> "" ->
  0 <= rotationAngle st ->
  let a := cropSquare (rotations n st) in
  let b := cropSquare st in
  snd a = snd b /\
  canvas (fst a) = canvas (fst b) /\
  preview (fst a) = preview (fst b) /\
  downloadLink (fst a) = downloadLink (fst b) /\
  widthInput (fst a) = widthInput (fst b) /\
  heightInput (fst a) = heightInput (fst b) /\
  aspectRatio (fst a) = aspectRatio (fst b) /\
  rotationAngle (fst a) = rotationAngle (rotations n st).
Proof.
  intros Hsrc Ha.
  destruct (rotations_fields n st Hsrc Ha) as (Ii & _ & _ & _ & Ip).
  cbv zeta. unfold cropSquare.
  rewrite Ii, (isEmpty_false _ Hsrc), Ip.
  cbn. auto 10.
Qed.

Lemma cropSquare_after_rotations_witness :
  canvas (fst (@cropSquare steppedEncoder
                 (@rotations steppedEncoder 3 (onload photo freshPage))))
  = canvas (fst (@cropSquare steppedEncoder (onload photo freshPage))) /\
  rotationAngle (fst (@cropSquare steppedEncoder
                        (@rotations steppedEncoder 3 (onload photo freshPage))))
  = 270.
Proof.
  destruct (@cropSquare_after_rotations steppedEncoder
              (onload photo freshPage) 3) as (_ & C & _ & _ & _ & _ & _ & A).
  - vm_compute. congruence.
  - vm_compute. congruence.
  - split; [exact C|]. rewrite A. vm_compute. reflexivity.
Defined.

Lemma rotations_inputs {browser : Browser} (img : Image.t)
    (st : ImageResizer) (n : nat) :
  Image.src img <> "" ->
  let stn := rotations n (onload img st) in
  let upright := Z.rem ((90 * Z.of_nat n) mod 360) 180 =? 0 in
  originalImage stn = img /\
  rotationAngle stn = (90 * Z.of_nat n) mod 360 /\
  widthInput stn
  = Z_to_string (if upright then Image.width img else Image.height img) /\
  heightInput stn
  = Z_to_string (if upright then Image.height img else Image.width img).
Proof.
  intros Hsrc. cbv zeta.
  destruct (rotations_angle img st n Hsrc) as [Hi Ha].
  split; [exact Hi|]. split; [exact Ha|].
  destruct n as [|k]; [split; reflexivity|].
  rewrite <- Ha. rewrite rotations_succ.
  destruct (rotations_angle img st k Hsrc) as [Ki Ka].
  assert (L : Image.src (originalImage (rotations k (onload img st))) <> "")
    by now rewrite Ki.
  unfold rotateImage. rewrite (isEmpty_false _ L), Ki.
  cbn [fst widthInput heightInput rotationAngle]. auto.
Qed.

(** X10: a resize draws the loaded image as it was loaded, whatever the
    rotations made before: after [n] presses of the rotate button on an
    image of [w] by [h], the fields hold the dimensions of the rotated
    picture, and a resize with the fields as they are leaves a canvas of
    these dimensions ([h] by [w] after a quarter turn) with the unrotated
    image stretched over it; the angle stays what the rotations made it. *)
Theorem resize_after_rotations {browser : Browser} (img : Image.t)
    (st : ImageResizer) (n : nat) :
  Image.src img <> "" ->
  0 < Image.width img -> 0 < Image.height img ->
  let stn := rotations n (onload img st) in
  let upright := Z.rem ((90 * Z.of_nat n) mod 360) 180 =? 0 in
  let W := if upright then Image.width img else Image.height img in
  let H := if upright then Image.height img else Image.width img in
  canvas (fst (resizeImage stn))
  = Canvas.mk W H [] [] [([], drawImage5 img 0 0 (inject_Z W) (inject_Z H))] /\
  rotationAngle (fst (resizeImage stn)) = (90 * Z.of_nat n) mod 360.
Proof.
  intros Hsrc Pw Ph.
  destruct (rotations_inputs img st n Hsrc) as (Hi & Ha & Hw & Hh).
  cbv zeta in *.
  destruct (resizeImage_keeps (rotations n (onload img st))) as (_ & Fa & _).
  cbv zeta in Fa. rewrite Fa, Ha. split; [|reflexivity].
  pose proof (Image_dimensions img) as D.
  assert (E : 2 ^ 53 = 9007199254740992) by reflexivity.
  rewrite (resizeImage_canvas (rotations n (onload img st)) _ _
             ltac:(now rewrite Hi)
             ltac:(rewrite Hw; apply parseInt_Z_to_string;
                   destruct (Z.rem _ 180 =? 0); lia)
             ltac:(rewrite Hh; apply parseInt_Z_to_string;
                   destruct (Z.rem _ 180 =? 0); lia)
             ltac:(destruct (Z.rem _ 180 =? 0); lia)
             ltac:(destruct (Z.rem _ 180 =? 0); lia)).
  rewrite Hi.
  destruct (Z.rem _ 180 =? 0);
    now rewrite !reflect_width, !reflect_height.
Qed.

Lemma resize_after_rotations_witness :
  canvas (fst (@resizeImage steppedEncoder
                 (@rotations steppedEncoder 1 (onload photo freshPage))))
  = Canvas.mk 600 800 [] [] [([], drawImage5 photo 0 0 600 800)].
Proof.
  destruct (@resize_after_rotations steppedEncoder photo freshPage 1)
    as [C _].
  - vm_compute. congruence.
  - reflexivity.
  - reflexivity.
  - exact C.
Defined.

(** ** The error handler *)

Lemma handlerHandleError_log (w : Window.t) (now : string)
    (errorInfo : ErrorInfo.t) (eh : ErrorHandler) :
  errorLog (handlerHandleError w now errorInfo eh)
  = firstn maxLogSize (entryOf w (now, errorInfo) :: errorLog eh) /\
  (Window.quotaExceeded w = false ->
   storedErrors (handlerHandleError w now errorInfo eh)
   = Some (errorLog (handlerHandleError w now errorInfo eh))).
Proof.
  unfold handlerHandleError, reportError, sendErrorReport, showUserError,
    logError.
  set (log := Entry.mk _ _ _ _ :: errorLog eh).
  assert (L : (if (maxLogSize <? length log)%nat then firstn maxLogSize log
               else log) = firstn maxLogSize log).
  { destruct (Nat.ltb_spec maxLogSize (length log)); trivial.
    symmetry. apply firstn_all2. assumption. }
  rewrite L.
  destruct (negb (isDevelopment w) && shouldReportError errorInfo);
    [destruct (Window.gtagDefined w)|]; cbn [errorLog storedErrors];
    (split; [reflexivity | intros ->; reflexivity]).
Qed.

(** X11: the log of the error handler holds the latest errors first and
    never more than 50 of them: after any succession of errors handled by a
    new handler, the log is the list of their entries in reverse order of
    arrival, cut after the fiftieth; and unless the storage is full, what
    is stored is the log. *)
Theorem errorLog_latest_fifty (w : Window.t)
    (events : list (string * ErrorInfo.t)) (stored : option (list Entry.t)) :
  let eh := handleAll w events (newErrorHandler stored) in
  errorLog eh = firstn 50 (rev (map (entryOf w) events)) /\
  (length (errorLog eh) <= 50)%nat /\
  length (errorLog eh) = Nat.min (length events) 50 /\
  (Window.quotaExceeded w = false -> events <> [] ->
   storedErrors eh = Some (errorLog eh)).
Proof.
  cbv zeta.
  assert (G : forall evs eh,
            errorLog (handleAll w evs eh)
            = firstn 50 (rev (map (entryOf w) evs) ++ errorLog eh) \/
            (length (errorLog eh) > 50)%nat).
  { induction evs as [|ev evs IH]; intros eh.
    - cbn [handleAll fold_left map rev app].
      destruct (Nat.le_gt_cases (length (errorLog eh)) 50); [left|right; lia].
      symmetry. apply firstn_all2. assumption.
    - cbn [handleAll fold_left map rev].
      fold (handleAll w evs (handlerHandleError w (fst ev) (snd ev) eh)).
      destruct (IH (handlerHandleError w (fst ev) (snd ev) eh)) as [E | E].
      + left. rewrite E.
        destruct (handlerHandleError_log w (fst ev) (snd ev) eh) as [-> _].
        replace (fst ev, snd ev) with ev by (destruct ev; reflexivity).
        rewrite <- app_assoc. cbn [app].
        set (pre := rev (map (entryOf w) evs)).
        change maxLogSize with 50%nat.
        rewrite !firstn_app.
        destruct (Nat.le_gt_cases 50 (length pre)) as [Hl | Hl].
        * replace (50 - length pre)%nat with 0%nat by lia. reflexivity.
        * f_equal. rewrite firstn_firstn. f_equal. lia.
      + exfalso.
        destruct (handlerHandleError_log w (fst ev) (snd ev) eh) as [L _].
        rewrite L, length_firstn in E. change maxLogSize with 50%nat in E.
        lia. }
  destruct (G events (newErrorHandler stored)) as [E | E];
    [|cbn in E; lia].
  cbn [newErrorHandler errorLog] in E. rewrite app_nil_r in E.
  rewrite E. split; [reflexivity|].
  rewrite length_firstn, length_rev, length_map.
  split; [lia|]. split; [lia|].
  intros Q N. rewrite <- E.
  destruct (exists_last N) as (evs & ev & ->).
  unfold handleAll. rewrite fold_left_app. cbn [fold_left].
  apply handlerHandleError_log. exact Q.
Qed.

Lemma errorLog_latest_fifty_witness :
  let w := Window.mk "example.org" "https://example.org/" "agent" true false in
  let e1 := ("2024-01-01T00:00:00.000Z",
             ErrorInfo.mk "file" "bad file" None None []) in
  let e2 := ("2024-01-02T00:00:00.000Z",
             ErrorInfo.mk "network" "offline" None (Some "https://cdn/") []) in
  storedErrors (handleAll w [e1; e2] (newErrorHandler None))
  = Some [entryOf w e2; entryOf w e1].
Proof.
  cbv zeta.
  destruct (errorLog_latest_fifty
              (Window.mk "example.org" "https://example.org/" "agent" true false)
              [("2024-01-01T00:00:00.000Z",
                ErrorInfo.mk "file" "bad file" None None []);
               ("2024-01-02T00:00:00.000Z",
                ErrorInfo.mk "network" "offline" None (Some "https://cdn/") [])]
              None) as (E & _ & _ & S).
  rewrite S, E; [reflexivity | reflexivity | discriminate].
Defined.

Lemma lookup_increment (key k : string) (m : list (string * Z)) :
  lookup k (increment key m)
  = if String.eqb key k
    then Some (match lookup k m with Some n => n + 1 | None => 1 end)
    else lookup k m.
Proof.
  induction m as [|[k' n] m IH]; cbn [increment lookup].
  - rewrite (String.eqb_sym key k). destruct (String.eqb k key); reflexivity.
  - destruct (String.eqb_spec k' key) as [-> | Hk]; cbn [lookup].
    + destruct (String.eqb_spec key k); reflexivity.
    + destruct (String.eqb_spec k' k) as [-> | Hk'].
      * destruct (String.eqb_spec key k); [congruence | reflexivity].
      * exact IH.
Qed.

Lemma increment_keys (key : string) (m : list (string * Z)) :
  NoDup (map fst m) -> NoDup (map fst (increment key m)) /\
  (forall k, In k (map fst (increment key m)) <-> k = key \/ In k (map fst m)).
Proof.
  induction m as [|[k' n] m IH]; cbn [increment map fst]; intros N.
  - split; [apply NoDup_cons; [intros [] | apply NoDup_nil]
           | intros k; cbn; intuition congruence].
  - inversion N as [|? ? Hnot N']; subst.
    destruct (String.eqb_spec k' key) as [-> | Hk]; cbn [map fst].
    + split; [exact N | intros k; cbn; intuition congruence].
    + destruct (IH N') as [IHn IHk]. split.
      * constructor; [|exact IHn]. rewrite IHk. intros [E | E]; congruence.
      * intros k. cbn [In]. rewrite IHk. intuition congruence.
Qed.

Lemma increment_sum (key : string) (m : list (string * Z)) :
  fold_right Z.add 0 (map snd (increment key m))
  = fold_right Z.add 0 (map snd m) + 1.
Proof.
  induction m as [|[k' n] m IH]; cbn [increment map snd fold_right]; [lia|].
  destruct (String.eqb k' key); cbn [map snd fold_right]; lia.
Qed.

Lemma byType_fold (log : list Entry.t) : forall m,
  NoDup (map fst m) ->
  (forall k n, lookup k m = Some n -> 1 <= n) ->
  let m' := fold_left (fun byType error =>
                         increment (ErrorInfo.type (Entry.info error)) byType)
                      log m in
  NoDup (map fst m') /\
  (forall k n, lookup k m' = Some n -> 1 <= n) /\
  (forall k, match lookup k m' with Some n => n | None => 0 end
             = match lookup k m with Some n => n | None => 0 end
               + countType k log) /\
  fold_right Z.add 0 (map snd m')
  = fold_right Z.add 0 (map snd m) + Z.of_nat (length log).
Proof.
  induction log as [|e log IH]; intros m N P; cbn [fold_left].
  - cbv zeta. unfold countType. cbn. repeat split; auto; intros; lia.
  - set (key := ErrorInfo.type (Entry.info e)).
    assert (P' : forall k n, lookup k (increment key m) = Some n -> 1 <= n).
    { intros k n. rewrite lookup_increment.
      destruct (String.eqb key k); [|apply P].
      intros [= <-]. destruct (lookup k m) eqn:L; [apply P in L|]; lia. }
    destruct (IH _ (proj1 (increment_keys key m N)) P') as (A & B & C & D).
    cbv zeta. repeat split; trivial.
    + intros k. rewrite C, lookup_increment. unfold countType.
      cbn [filter]. fold key.
      destruct (String.eqb key k); cbn [length];
        destruct (lookup k m); lia.
    + rewrite D, increment_sum. cbn [length]. lia.
Qed.

(** X12: on a log of errors of the types the scripts use, the statistics
    count every entry once: [total] is the length of the log, [byType] has
    one key for each type that occurs, with the number of entries of that
    type, no key for a type that does not occur, and its counts add up to
    [total]; [recent] is at most [total]. *)
Theorem getErrorStats_counts (withinTheHour : string -> bool)
    (eh : ErrorHandler) :
  Forall (fun error => In (ErrorInfo.type (Entry.info error)) knownTypes)
         (errorLog eh) ->
  let stats := getErrorStats withinTheHour eh in
  Stats.total stats = Z.of_nat (length (errorLog eh)) /\
  NoDup (map fst (Stats.byType stats)) /\
  (forall key, lookup key (Stats.byType stats)
               = if countType key (errorLog eh) =? 0 then None
                 else Some (countType key (errorLog eh))) /\
  fold_right Z.add 0 (map snd (Stats.byType stats)) = Stats.total stats /\
  0 <= Stats.recent stats <= Stats.total stats.
Proof.
  intros _.
  cbv zeta. unfold getErrorStats. cbn [Stats.total Stats.byType Stats.recent].
  destruct (byType_fold (errorLog eh) [] (NoDup_nil _))
    as (A & B & C & D); [intros k n; discriminate|].
  cbv zeta in *. split; [reflexivity|]. split; [exact A|].
  split; [|split; [rewrite D; reflexivity|]].
  - intros key. specialize (C key). cbn [lookup] in C.
    rewrite Z.add_0_l in C.
    destruct (lookup key _) as [n|] eqn:L.
    + apply B in L. rewrite <- C.
      destruct (Z.eqb_spec n 0); [lia | reflexivity].
    + rewrite <- C. reflexivity.
  - pose proof (filter_length_le
                  (fun error => withinTheHour (Entry.timestamp error))
                  (errorLog eh)). lia.
Qed.

Lemma getErrorStats_counts_witness :
  let w := Window.mk "example.org" "https://example.org/" "agent" true false in
  let eh := handleAll w
              [("t1", ErrorInfo.mk "file" "a" None None []);
               ("t2", ErrorInfo.mk "network" "b" None None []);
               ("t3", ErrorInfo.mk "file" "c" None None [])]
              (newErrorHandler None) in
  lookup "file" (Stats.byType (getErrorStats (fun _ => true) eh)) = Some 2 /\
  lookup "promise" (Stats.byType (getErrorStats (fun _ => true) eh)) = None.
Proof.
  cbv zeta.
  destruct (getErrorStats_counts (fun _ => true)
              (handleAll
                 (Window.mk "example.org" "https://example.org/" "agent" true
                    false)
                 [("t1", ErrorInfo.mk "file" "a" None None []);
                  ("t2", ErrorInfo.mk "network" "b" None None []);
                  ("t3", ErrorInfo.mk "file" "c" None None [])]
                 (newErrorHandler None))) as (_ & _ & L & _).
  - vm_compute. repeat (apply Forall_cons; [auto 10|]). apply Forall_nil.
  - split; rewrite L; reflexivity.
Defined.

Lemma handlerHandleError_reports (w : Window.t) (now : string) (errorInfo : ErrorInfo.t)
    (eh : ErrorHandler) (message field : string) (file : option File.t) :
  reports (handleValidationError w now message field eh) = reports eh /\
  reports (handleFileError w now message file eh) = reports eh /\
  (includes (Window.hostname w) "dev" = true \/
   Window.gtagDefined w = false ->
   reports (handlerHandleError w now errorInfo eh) = reports eh) /\
  (reports (handlerHandleError w now errorInfo eh) = reports eh \/
   reports (handlerHandleError w now errorInfo eh)
   = (reports eh ++ [ErrorInfo.message errorInfo])%list).
Proof.
  unfold handleValidationError, handleFileError, handlerHandleError,
    reportError, sendErrorReport, shouldReportError, showUserError, logError,
    isDevelopment.
  cbn [ErrorInfo.type String.eqb Ascii.eqb Bool.eqb orb andb].
  rewrite !andb_false_r. cbn [reports].
  split; [reflexivity|]. split; [reflexivity|]. split.
  - intros [H | H].
    + rewrite H, !orb_true_r. reflexivity.
    + rewrite H. destruct (_ && _); reflexivity.
  - destruct (_ && _); [destruct (Window.gtagDefined w)|]; cbn [reports]; auto.
Qed.

(** X13: what is sent to the analytics: errors of the types validation and
    file are never sent, nothing is sent from a development host, which is
    any host whose name contains "dev", and nothing is sent when [gtag] is
    not defined; every other error adds its message, and only that, to what
    was sent. *)
Theorem reports_sent (w : Window.t) (now : string) (errorInfo : ErrorInfo.t)
    (eh : ErrorHandler) (message field : string) (file : option File.t) :
  reports (handleValidationError w now message field eh) = reports eh /\
  reports (handleFileError w now message file eh) = reports eh /\
  (includes (Window.hostname w) "dev" = true \/
   Window.gtagDefined w = false ->
   reports (handlerHandleError w now errorInfo eh) = reports eh) /\
  (reports (handlerHandleError w now errorInfo eh) = reports eh \/
   reports (handlerHandleError w now errorInfo eh)
   = (reports eh ++ [ErrorInfo.message errorInfo])%list).
Proof.
  exact (handlerHandleError_reports w now errorInfo eh message field file).
Qed.

Lemma reports_sent_witness :
  let w := Window.mk "mydevice.example.org" "https://x/" "agent" true false in
  reports (handlerHandleError w "2024-01-01T00:00:00.000Z"
             (ErrorInfo.mk "javascript" "boom" None None [])
             (newErrorHandler None)) = [].
Proof.
  cbv zeta.
  apply (reports_sent
           (Window.mk "mydevice.example.org" "https://x/" "agent" true false)
           "2024-01-01T00:00:00.000Z"
           (ErrorInfo.mk "javascript" "boom" None None [])
           (newErrorHandler None) "" "" None).
  left. vm_compute. reflexivity.
Defined.

(** ** File validation and error messages of the application *)

Lemma supported_In (type : string) :
  supported type = true <-> In type supportedTypes.
Proof.
  unfold supported. rewrite existsb_exists. split.
  - intros (x & Hin & E). apply String.eqb_eq in E. now subst.
  - intros H. exists type. split; [exact H | apply String.eqb_refl].
Qed.

Lemma handlerHandleError_shown (w : Window.t) (now : string)
    (errorInfo : ErrorInfo.t) (eh : ErrorHandler) :
  errorNotification (handlerHandleError w now errorInfo eh)
  = Some (userError errorInfo).
Proof.
  unfold handlerHandleError, reportError, sendErrorReport, showUserError.
  destruct (_ && _); [destruct (Window.gtagDefined w)|]; reflexivity.
Qed.

Lemma handleFileError_rejectedVia (w : Window.t) (now m : string)
    (file : option File.t) (eh : ErrorHandler) :
  m <> "" ->
  rejectedVia w now eh (handleFileError w now m file eh) m "error".
Proof.
  intros Hm. unfold rejectedVia. split; [|split].
  - unfold handleFileError. rewrite handlerHandleError_shown.
    unfold userError. cbn [ErrorInfo.type ErrorInfo.message String.eqb
                           Ascii.eqb Bool.eqb].
    unfold orElse. now rewrite (isEmpty_false _ Hm).
  - unfold handleFileError.
    match goal with
    | |- context [handlerHandleError w now ?info eh] =>
        exists (entryOf w (now, info))
    end.
    split; [reflexivity|]. split; [reflexivity|].
    apply handlerHandleError_log.
  - exact (proj1 (proj2 (handlerHandleError_reports w now
                           (ErrorInfo.mk "" "" None None []) eh m "" file))).
Qed.

Lemma handleValidationError_rejectedVia (w : Window.t) (now m field : string)
    (eh : ErrorHandler) :
  m <> "" ->
  rejectedVia w now eh (handleValidationError w now m field eh) m "warning".
Proof.
  intros Hm. unfold rejectedVia. split; [|split].
  - unfold handleValidationError. rewrite handlerHandleError_shown.
    unfold userError. cbn [ErrorInfo.type ErrorInfo.message String.eqb
                           Ascii.eqb Bool.eqb].
    unfold orElse. now rewrite (isEmpty_false _ Hm).
  - unfold handleValidationError.
    match goal with
    | |- context [handlerHandleError w now ?info eh] =>
        exists (entryOf w (now, info))
    end.
    split; [reflexivity|]. split; [reflexivity|].
    apply handlerHandleError_log.
  - exact (proj1 (handlerHandleError_reports w now
                    (ErrorInfo.mk "" "" None None []) eh m field None)).
Qed.

(** X14: [validateFile] accepts a file exactly when there is one, its type
    is one of the four supported types and its size is at most 20 MB
    (20971520 bytes, the bound included); an accepted file leaves the
    handler as it was and shows nothing.  A rejected file shows one
    message, the same whether the page has the error handler or not:
    without it the application shows the message itself; with it the
    handler shows it (as a warning when there is no file, as an error
    otherwise), puts it at the head of its log and sends nothing. *)
Theorem validateFile_accepts (w : Window.t) (now : string)
    (file : option File.t) :
  let valid := exists f, file = Some f /\ In (File.type f) supportedTypes /\
                         File.size f <= 20971520 in
  (valid ->
   forall errorHandler,
     validateFile w now errorHandler file = (true, errorHandler, None)) /\
  (~ valid ->
   exists m,
     validateFile w now None file = (false, None, Some (showErrorMessage m)) /\
     forall eh, exists eh',
       validateFile w now (Some eh) file = (false, Some eh', None) /\
       rejectedVia w now eh eh' m
         (match file with None => "warning" | Some _ => "error" end)).
Proof.
  cbv zeta. unfold validateFile.
  destruct file as [f|].
  - destruct (supported (File.type f)) eqn:S; cbn [negb].
    + destruct (Z.ltb_spec maxFileSize (File.size f)) as [L | L];
        unfold maxFileSize in L.
      * split.
        -- intros (f' & [= <-] & _ & B). lia.
        -- intros _. eexists. split; [reflexivity|].
           intros eh. eexists. split; [reflexivity|].
           apply handleFileError_rejectedVia. discriminate.
      * split; [reflexivity|].
        intros N. exfalso. apply N. exists f.
        apply supported_In in S. repeat split; [exact S | lia].
    + split.
      * intros (f' & [= <-] & A & _). apply supported_In in A. congruence.
      * intros _. eexists. split; [reflexivity|].
        intros eh. eexists. split; [reflexivity|].
        apply handleFileError_rejectedVia. discriminate.
  - split.
    + intros (f' & [=] & _).
    + intros _. eexists. split; [reflexivity|].
      intros eh. eexists. split; [reflexivity|].
      apply handleValidationError_rejectedVia. discriminate.
Qed.

Lemma validateFile_accepts_witness :
  let w := Window.mk "example.org" "https://example.org/" "agent" true false in
  let atBound := File.mk "a.png" 20971520 "image/png" in
  let over := File.mk "b.png" 20971521 "image/png" in
  validateFile w "now" None (Some atBound) = (true, None, None) /\
  validateFile w "now" None (Some over)
  = (false, None,
     Some (showErrorMessage "File size must be less than 20MB.")).
Proof.
  cbv zeta. split.
  - apply (validateFile_accepts
             (Window.mk "example.org" "https://example.org/" "agent" true false)
             "now" (Some (File.mk "a.png" 20971520 "image/png"))).
    eexists. split; [reflexivity|]. split; [cbn; auto | cbn; lia].
  - reflexivity.
Defined.

(** X15: an error caught by the application is never shown in its own
    words: without the error handler the application shows its fixed text;
    with it the handler shows, as an error, that text or one of three
    others, chosen by whether the message of the error mentions "canvas",
    "memory" or "network", in that order of precedence. *)
Theorem handleError_fixed_texts (w : Window.t) (now : string)
    (errorHandler : option ErrorHandler) (message : string) :
  let r := handleError w now errorHandler message in
  match errorHandler with
  | None =>
      r = (None,
           Some (showErrorMessage
                   "An unexpected error occurred. Please try again."))
  | Some eh =>
      snd r = None /\
      exists eh', fst r = Some eh' /\
        errorNotification eh'
        = Some (if includes message "canvas" then
                  "Canvas processing error. Please try with a different image."
                else if includes message "memory" then
                  "Image is too large. Please try with a smaller image."
                else if includes message "network" then
                  "Network error. Please check your connection and try again."
                else "An unexpected error occurred. Please try again.",
                "error")
  end.
Proof.
  cbv zeta. unfold handleError. destruct errorHandler as [eh|]; [|reflexivity].
  split; [reflexivity|]. eexists. split; [reflexivity|].
  rewrite handlerHandleError_shown. unfold userError.
  cbn [ErrorInfo.type ErrorInfo.message String.eqb Ascii.eqb Bool.eqb].
  unfold orElse. destruct message as [|a message']; [reflexivity|].
  cbn [isEmpty].
  destruct (includes _ "canvas"); [reflexivity|].
  destruct (includes _ "memory"); [reflexivity|].
  destruct (includes _ "network"); reflexivity.
Qed.

(** ** The theme *)

(** X16: the theme of the application survives a reload: after
    [toggleTheme] the stored item says whether the page is dark, and
    [loadTheme] on the reloaded page, whatever its markup, gives the root
    element the theme that was toggled to; toggling twice gives back the
    theme there was. *)
Theorem theme_round_trip (t : Theme) (markupDark : bool)
    (markupToggle : option bool) :
  savedTrue (toggleTheme t) = darkModeClass (toggleTheme t) /\
  darkModeClass (loadTheme (reloaded markupDark markupToggle (toggleTheme t)))
  = darkModeClass (toggleTheme t) /\
  darkModeClass (toggleTheme t) = negb (darkModeClass t) /\
  darkModeClass (toggleTheme (toggleTheme t)) = darkModeClass t.
Proof.
  unfold toggleTheme, loadTheme, reloaded, savedTrue.
  destruct (darkModeClass t); cbn; auto.
Qed.

(** X17: the theme manager keeps the check box, when the page has one, and
    the stored item in step with the class it toggles, and tells the new
    theme in a [themeChanged] event; but its [loadTheme] only ever adds the
    class: on a page whose markup is dark a stored light theme is not
    restored, where [ImageResizer.loadTheme] removes the class. *)
Theorem themeManager_round_trip (t : Theme) (markupToggle : option bool) :
  let t' := ThemeManager.toggleTheme t in
  darkModeClass t' = negb (darkModeClass t) /\
  savedTrue t' = darkModeClass t' /\
  (forall checked, darkModeToggle t = Some checked ->
                   darkModeToggle t' = Some (darkModeClass t')) /\
  themeChanged t' = (themeChanged t ++ [darkModeClass t'])%list /\
  darkModeClass (ThemeManager.loadTheme (reloaded false markupToggle t'))
  = darkModeClass t' /\
  darkModeClass (ThemeManager.loadTheme (reloaded true markupToggle t'))
  = true /\
  darkModeClass (loadTheme (reloaded true markupToggle t'))
  = darkModeClass t'.
Proof.
  cbv zeta.
  unfold ThemeManager.toggleTheme, ThemeManager.loadTheme, loadTheme,
    reloaded, savedTrue.
  destruct (darkModeClass t); cbn; repeat split; auto;
    intros checked ->; reflexivity.
Qed.

(** X18: both scripts bind a click handler to the theme toggle.  When both
    handlers run on one click the theme does not change, in either order:
    the class ends as it was and the stored item spells it; and when the
    manager runs first, the [themeChanged] event and the check box are left
    telling the opposite of the theme shown. *)
Theorem theme_toggled_twice (t : Theme) (checked : bool) :
  darkModeToggle t = Some checked ->
  let managerFirst := toggleTheme (ThemeManager.toggleTheme t) in
  let managerLast := ThemeManager.toggleTheme (toggleTheme t) in
  darkModeClass managerFirst = darkModeClass t /\
  darkModeClass managerLast = darkModeClass t /\
  savedTrue managerFirst = darkModeClass t /\
  savedTrue managerLast = darkModeClass t /\
  darkModeToggle managerFirst = Some (negb (darkModeClass t)) /\
  darkModeToggle managerLast = Some (darkModeClass t) /\
  themeChanged managerFirst
  = (themeChanged t ++ [negb (darkModeClass t)])%list /\
  themeChanged managerLast = (themeChanged t ++ [darkModeClass t])%list.
Proof.
  intros H. cbv zeta. unfold toggleTheme, ThemeManager.toggleTheme, savedTrue.
  destruct (darkModeClass t) eqn:D; cbn; rewrite ?H, ?D; cbn; auto 10.
Qed.

Lemma theme_toggled_twice_witness :
  let t := mkTheme false None (Some false) [] in
  darkModeClass (toggleTheme (ThemeManager.toggleTheme t)) = false /\
  darkModeToggle (toggleTheme (ThemeManager.toggleTheme t)) = Some true.
Proof.
  destruct (theme_toggled_twice (mkTheme false None (Some false) []) false)
    as (A & _ & _ & _ & B & _); [reflexivity|].
  split; [exact A | exact B].
Defined.

(** ** Keyboard shortcuts *)

(** X19: a key press changes the state only when it is a plain [r] or a
    plain [c]: with Ctrl or Meta held, or with any other key, the state is
    returned as it was; a plain [r] does what the rotate button does and a
    plain [c] what the crop button does, and reports it. *)
Theorem shortcuts_change_state {browser : Browser} (st : ImageResizer)
    (event : KeyboardEvent) :
  (ctrlKey event || metaKey event = true \/
   (key event <> "r" /\ key event <> "c") ->
   fst (handleKeyboardShortcuts st event) = st) /\
  (ctrlKey event || metaKey event = false ->
   (key event = "r" ->
    handleKeyboardShortcuts st event
    = (fst (rotateImage st), [reported (snd (rotateImage st))])) /\
   (key event = "c" ->
    handleKeyboardShortcuts st event
    = (fst (cropSquare st), [reported (snd (cropSquare st))]))).
Proof.
  unfold handleKeyboardShortcuts. split.
  - intros [H | [Hr Hc]].
    + apply orb_true_iff in H.
      assert (E : forall b, b && negb (ctrlKey event) && negb (metaKey event)
                            = false).
      { intros b. destruct H as [H | H]; rewrite H;
          destruct b, (ctrlKey event), (metaKey event); reflexivity. }
      rewrite !E. reflexivity.
    + apply String.eqb_neq in Hr, Hc. rewrite Hr, Hc. reflexivity.
  - intros H. apply orb_false_iff in H. destruct H as [Hc Hm].
    rewrite Hc, Hm. cbn [orb andb negb]. split; intros ->.
    + cbn [String.eqb Ascii.eqb Bool.eqb andb].
      destruct (rotateImage st). reflexivity.
    + cbn [String.eqb Ascii.eqb Bool.eqb andb].
      destruct (cropSquare st). reflexivity.
Qed.

Lemma shortcuts_change_state_witness :
  fst (@handleKeyboardShortcuts steppedEncoder (onload photo freshPage)
         (mkKeyboardEvent true false "r"))
  = onload photo freshPage.
Proof.
  apply (@shortcuts_change_state steppedEncoder (onload photo freshPage)
           (mkKeyboardEvent true false "r")).
  left. reflexivity.
Defined.

(** X20: Ctrl+S or Meta+S downloads what the last transform produced, and
    nothing when there is nothing to download: right after an image is
    loaded the link is hidden and the key press only prevents the default
    action; after a rotation or a crop of a loaded image it clicks the
    link, whose target is the data URL shown in the preview. *)
Theorem save_shortcut {browser : Browser} (img : Image.t) (st : ImageResizer)
    (event : KeyboardEvent) :
  ctrlKey event || metaKey event = true ->
  key event = "s" ->
  snd (handleKeyboardShortcuts (onload img st) event) = [preventDefault] /\
  (Image.src (originalImage st) <> "" ->
   forall st', st' = fst (rotateImage st) \/ st' = fst (cropSquare st) ->
     snd (handleKeyboardShortcuts st' event)
     = [preventDefault; clickDownloadLink (Preview.src (preview st'))] /\
     Preview.src (preview st') = toDataURL (canvas st') 0.9%float).
Proof.
  intros Hm Hk. unfold handleKeyboardShortcuts. rewrite Hm, Hk.
  cbn [String.eqb Ascii.eqb Bool.eqb andb orb]. split; [reflexivity|].
  intros Hsrc st' [-> | ->].
  - unfold rotateImage. rewrite (isEmpty_false _ Hsrc).
    cbn [fst downloadLink preview canvas DownloadLink.display
         DownloadLink.href Preview.src String.eqb Ascii.eqb Bool.eqb negb].
    split; reflexivity.
  - unfold cropSquare. rewrite (isEmpty_false _ Hsrc).
    cbn [fst downloadLink preview canvas DownloadLink.display
         DownloadLink.href Preview.src String.eqb Ascii.eqb Bool.eqb negb].
    split; reflexivity.
Qed.

Lemma save_shortcut_witness :
  snd (@handleKeyboardShortcuts steppedEncoder (onload photo freshPage)
         (mkKeyboardEvent true false "s")) = [preventDefault].
Proof.
  apply (@save_shortcut steppedEncoder photo freshPage
           (mkKeyboardEvent true false "s")); reflexivity.
Defined.
